(** * NewsFetcher: a shallow embedding of [src/lib/functions/manager/fetch.manager.ts]

    The class [NewsFetcher] holds a base URL and a date context, derives a
    per-day resource URL from them, fetches a JSON array of news items and
    answers queries over the fetched array.

    Conventions of the embedding.
    - Counts, limits and millisecond time values are integers of [Z].  The
      date context is embedded twice: over integers ([NewsFetcher],
      [createUrl], [setDate]), which is what the class is meant to hold, and
      over all values of the type [number] (module [Numeric]: fractions,
      [NaN], infinities), which is what it can hold; the two agree on
      integers.  [Number_toString] is the decimal rendering, which is what
      [Number.prototype.toString] gives for an integer below 10^21.
    - A [string] is a sequence of ASCII characters; [toLowerCase] lowers the
      letters A to Z.
    - A method is a function of the run-time state (the receiver [this] and
      the console) to a completion (a value or a thrown error) and a new
      state.
    - The network is a function of the requested URL to what [fetch] does
      with it; [Date] parsing is a function of the text to a time value. *)

From Stdlib Require Import ZArith List String Ascii Bool Lia.
From Stdlib Require Import DecimalString Permutation Sorted.
Import ListNotations.

Local Open Scope string_scope.
Local Open Scope Z_scope.

(* ================================================================= *)
(** ** Strings and numbers of the host language *)

Module Js.

(** [Number.prototype.toString] on an integer. *)
Definition Number_toString (n : Z) : string :=
  NilZero.string_of_int (Z.to_int n).

(** The first [n] characters of [padString] repeated for ever, [cur] being
    what is left of the copy in progress. *)
Fixpoint pad_fill (n : nat) (cur padString : string) : string :=
  match n with
  | O => ""
  | S n' =>
      match cur with
      | String c rest => String c (pad_fill n' rest padString)
      | EmptyString =>
          match padString with
          | String c rest => String c (pad_fill n' rest padString)
          | EmptyString => ""
          end
      end
  end.

(** [s.padStart(targetLength, padString)]: [s] itself when it is long enough
    or there is nothing to pad with. *)
Definition padStart (s : string) (targetLength : Z) (padString : string) : string :=
  let len := Z.of_nat (String.length s) in
  if (targetLength <=? len) || (padString =? "")%string then s
  else pad_fill (Z.to_nat (targetLength - len)) "" padString ++ s.

Definition lower_ascii (c : ascii) : ascii :=
  let n := nat_of_ascii c in
  if (65 <=? n)%nat && (n <=? 90)%nat then ascii_of_nat (n + 32) else c.

(** [s.toLowerCase()]. *)
Fixpoint toLowerCase (s : string) : string :=
  match s with
  | EmptyString => EmptyString
  | String c rest => String (lower_ascii c) (toLowerCase rest)
  end.

(** [s.includes(searchString)]: [searchString] starts at some position. *)
Fixpoint includes (s searchString : string) : bool :=
  prefix searchString s
  || match s with
     | EmptyString => false
     | String _ rest => includes rest searchString
     end.

(** [a[i]]: [undefined] (here [None]) outside the array. *)
Definition Array_get {A : Type} (a : list A) (i : Z) : option A :=
  if i <? 0 then None else nth_error a (Z.to_nat i).

(** A value of type [string | undefined] inside a template literal. *)
Definition template_of (v : option string) : string :=
  match v with
  | Some s => s
  | None => "undefined"
  end.

(** [a.slice(start, end)] on integers: a negative bound counts from the end
    of the array, and both bounds are clamped to the array. *)
Definition slice_bound (len k : Z) : Z :=
  if k <? 0 then Z.max (len + k) 0 else Z.min k len.

Definition slice {A : Type} (a : list A) (start end_ : Z) : list A :=
  let len := Z.of_nat (List.length a) in
  let from := slice_bound len start in
  let to := slice_bound len end_ in
  firstn (Z.to_nat (to - from)) (skipn (Z.to_nat from) a).

(** *** [Array.prototype.sort]

    ECMAScript requires the sort to be stable, and for a consistent
    comparator the result is then determined: the elements in
    non-decreasing order of the comparator, equal ones in their original
    order.  The insertion sort below computes it.  A comparator result of
    [NaN] counts as [0]: comparators return [option Z], [None] for [NaN].
    For a comparator that is not consistent the language leaves the order
    to the implementation, and the function below gives one such order. *)
Definition SortCompare {A : Type} (comparefn : A -> A -> option Z) (x y : A) : Z :=
  match comparefn x y with
  | Some v => v
  | None => 0
  end.

Fixpoint sort_insert {A : Type} (comparefn : A -> A -> option Z) (x : A) (l : list A) : list A :=
  match l with
  | [] => [x]
  | y :: l' =>
      if SortCompare comparefn x y <=? 0 then x :: y :: l'
      else y :: sort_insert comparefn x l'
  end.

Definition sort {A : Type} (a : list A) (comparefn : A -> A -> option Z) : list A :=
  fold_right (sort_insert comparefn) [] a.

(** *** [Set<string>] and [Map<string, number>]

    Both iterate in insertion order, so they are lists: a set without
    repetition, a map with one entry per key.  Setting a key that is present
    keeps its position. *)
Definition Set_has (s : list string) (x : string) : bool :=
  existsb (String.eqb x) s.

Definition Set_add (s : list string) (x : string) : list string :=
  if Set_has s x then s else s ++ [x].

(** [new Set(a)]. *)
Definition Set_new (a : list string) : list string :=
  fold_left Set_add a [].

Definition JsMap : Type := list (string * Z).

Fixpoint Map_get (m : JsMap) (k : string) : option Z :=
  match m with
  | [] => None
  | (k', v) :: m' => if (k' =? k)%string then Some v else Map_get m' k
  end.

Fixpoint Map_set (m : JsMap) (k : string) (v : Z) : JsMap :=
  match m with
  | [] => [(k, v)]
  | (k', v') :: m' =>
      if (k' =? k)%string then (k', v) :: m' else (k', v') :: Map_set m' k v
  end.

(** [x || 0] on [number | undefined]. *)
Definition or_zero (x : option Z) : Z :=
  match x with
  | Some v => v
  | None => 0
  end.

End Js.

Import Js.

(* ================================================================= *)
(** ** Data model *)

Record Author := { name : string }.

Record Image := { url : string }.

(** The [item] payload of a news item. *)
Record Item := {
  title : string;
  description : string;
  links : list string;
  categories : list string;
  source : string;
  authors : list Author;
  image : Image;
  published : string
}.

Record NewsItem := {
  hash : string;
  item : Item
}.

(** An element of the result of [ReturnTopSourcesByArticleCount]. *)
Record SourceCount := {
  sc_source : string;
  sc_count : Z
}.

(** The fields of a [NewsFetcher] instance; [monthNames] is the same for
    every instance and is a constant below. *)
Record NewsFetcher := {
  baseUrl : string;
  month : Z;
  year : Z;
  date : Z
}.

Definition monthNames : list string :=
  [ "January"; "February"; "March"; "April"; "May"; "June";
    "July"; "August"; "September"; "October"; "November"; "December" ].

(** The constructor stores its arguments and validates nothing. *)
Definition constructor (baseUrl : string) (date month year : Z) : NewsFetcher :=
  {| baseUrl := baseUrl; month := month; year := year; date := date |}.

(** [createUrl]. *)
Definition createUrl (this : NewsFetcher) : string :=
  let monthString := Array_get monthNames (month this - 1) in
  let paddedDate := padStart (Number_toString (date this)) 2 "0" in
  let paddedMonth := padStart (Number_toString (month this)) 2 "0" in
  baseUrl this ++ "/" ++ template_of monthString ++ "-" ++ Number_toString (year this)
    ++ "/" ++ paddedDate ++ "-" ++ paddedMonth ++ "-" ++ Number_toString (year this)
    ++ ".json".

(* ================================================================= *)
(** ** Errors, completions and methods *)

Record JsError := {
  error_name : string;
  message : string
}.

(** [new Error(message)]. *)
Definition Error (message : string) : JsError :=
  {| error_name := "Error"; message := message |}.

(** What a method runs in: its receiver and the console, where
    [console.error(label, error)] appends a line. *)
Record Runtime := {
  receiver : NewsFetcher;
  console : list (string * JsError)
}.

Inductive Completion (A : Type) : Type :=
| Returned (a : A)
| Thrown (e : JsError).

Arguments Returned {A} a.
Arguments Thrown {A} e.

Definition Method (A : Type) : Type := Runtime -> Completion A * Runtime.

Definition ret {A : Type} (a : A) : Method A :=
  fun rt => (Returned a, rt).

Definition throw {A : Type} (e : JsError) : Method A :=
  fun rt => (Thrown e, rt).

Definition bind {A B : Type} (m : Method A) (k : A -> Method B) : Method B :=
  fun rt =>
    match m rt with
    | (Returned a, rt') => k a rt'
    | (Thrown e, rt') => (Thrown e, rt')
    end.

(** [try { body } catch (error) { handler }]: what [body] did to the state
    before it threw stays done. *)
Definition try_catch {A : Type} (body : Method A) (handler : JsError -> Method A) : Method A :=
  fun rt =>
    match body rt with
    | (Returned a, rt') => (Returned a, rt')
    | (Thrown e, rt') => handler e rt'
    end.

Definition get_this : Method NewsFetcher :=
  fun rt => (Returned (receiver rt), rt).

Definition set_this (this : NewsFetcher) : Method unit :=
  fun rt => (Returned tt, {| receiver := this; console := console rt |}).

Definition console_error (label : string) (error : JsError) : Method unit :=
  fun rt => (Returned tt, {| receiver := receiver rt; console := console rt ++ [(label, error)] |}).

Declare Scope method_scope.
Delimit Scope method_scope with method.
Notation "x <- m ;; k" := (bind m (fun x => k))
  (at level 61, m at next level, right associativity) : method_scope.
Notation "m ;;; k" := (bind m (fun _ => k))
  (at level 61, right associativity) : method_scope.
Local Open Scope method_scope.

(** The assignments [this.date = v], [this.month = v] and [this.year = v]. *)
Definition assign_date (v : Z) : Method unit :=
  this <- get_this ;;
  set_this {| baseUrl := baseUrl this; month := month this; year := year this; date := v |}.

Definition assign_month (v : Z) : Method unit :=
  this <- get_this ;;
  set_this {| baseUrl := baseUrl this; month := v; year := year this; date := date this |}.

Definition assign_year (v : Z) : Method unit :=
  this <- get_this ;;
  set_this {| baseUrl := baseUrl this; month := month this; year := v; date := date this |}.

(** [setDate]: the three range tests, then the three assignments. *)
Definition setDate (date month year : Z) : Method unit :=
  if (date <? 1) || (date >? 31) then throw (Error "Invalid date")
  else if (month <? 1) || (month >? 12) then throw (Error "Invalid month")
  else if (year <? 2000) || (year >? 2100) then throw (Error "Invalid year")
  else
    assign_date date ;;;
    assign_month month ;;;
    assign_year year.

(* ================================================================= *)
(** ** The network and the clock *)

(** What [response.json()] gives: the parsed array, typed as the interface
    declares it, or the error it rejects with.  A body that decodes to a
    value of another shape (not an array, or an array of other things) is
    not represented: on such a value the array methods and field reads of a
    query can throw, which is what the [catch] of each query is for, so in
    this embedding those handlers are never entered. *)
Inductive Body :=
| Malformed (e : JsError)
| Parsed (data : list NewsItem).

Record Response := {
  status : Z;
  body : Body
}.

(** [response.ok]: the status is in the range 200 to 299. *)
Definition ok (r : Response) : bool :=
  (200 <=? status r) && (status r <=? 299).

(** What [await fetch(url)] does: it throws (a network error) or gives a
    response. *)
Inductive FetchOutcome :=
| Rejected (e : JsError)
| Resolved (r : Response).

(** A [Date]: its time value in milliseconds, [None] for an invalid date
    (whose time value is [NaN]). *)
Definition Date : Type := option Z.

(** [x - y] on numbers that may be [NaN]. *)
Definition Number_sub (x y : option Z) : option Z :=
  match x, y with
  | Some a, Some b => Some (a - b)
  | _, _ => None
  end.

(** [x >= y] and [x <= y] on dates: the time values are compared, and a
    comparison with [NaN] is false. *)
Definition Date_ge (x y : Date) : bool :=
  match x, y with
  | Some a, Some b => a >=? b
  | _, _ => false
  end.

Definition Date_le (x y : Date) : bool :=
  match x, y with
  | Some a, Some b => a <=? b
  | _, _ => false
  end.

(* ================================================================= *)
(** ** The methods that fetch *)

Section Methods.

(** The network: what [fetch] does with a URL. *)
Variable fetch : string -> FetchOutcome.

(** The clock: [new Date(text).getTime()], [None] when [text] is not a
    date. *)
Variable Date_getTime : string -> option Z.

Definition await_fetch (url : string) : Method Response :=
  match fetch url with
  | Rejected e => throw e
  | Resolved response => ret response
  end.

Definition await_json (response : Response) : Method (list NewsItem) :=
  match body response with
  | Malformed e => throw e
  | Parsed data => ret data
  end.

(** [fetchNewsData]. *)
Definition fetchNewsData : Method (list NewsItem) :=
  try_catch
    (this <- get_this ;;
     let url := createUrl this in
     response <- await_fetch url ;;
     if negb (ok response)
     then throw (Error ("HTTP error! status: " ++ Number_toString (status response)))
     else await_json response)
    (fun error => console_error "Error fetching news data:" error ;;; ret []).

(** [ReturnAllSources]. *)
Definition ReturnAllSources : Method (list string) :=
  try_catch
    (data <- fetchNewsData ;;
     let sources := Set_new (map (fun item0 => source (item item0)) data) in
     ret sources)
    (fun error => console_error "Error processing sources:" error ;;; ret []).

(** [map.set(key, (map.get(key) || 0) + 1)]. *)
Definition count_up (m : JsMap) (key : string) : JsMap :=
  Map_set m key (or_zero (Map_get m key) + 1).

(** The comparator [(a, b) => b[1] - a[1]] on map entries. *)
Definition by_count_desc (a b : string * Z) : option Z :=
  Some (snd b - snd a).

(** The map [categoryFrequency] after the two nested [forEach] loops of
    [ReturnAllTopics]. *)
Definition categoryFrequency (data : list NewsItem) : JsMap :=
  fold_left (fun m newsItem => fold_left count_up (categories (item newsItem)) m)
            data [].

(** [ReturnAllTopics]. *)
Definition ReturnAllTopics : Method (list string) :=
  try_catch
    (data <- fetchNewsData ;;
     ret (map fst (sort (categoryFrequency data) by_count_desc)))
    (fun error => console_error "Error processing categories:" error ;;; ret []).

(** [ReturnNewsWithATopic]. *)
Definition ReturnNewsWithATopic (category : string) : Method (list NewsItem) :=
  try_catch
    (data <- fetchNewsData ;;
     ret (filter (fun newsItem =>
            existsb (fun cat => (toLowerCase cat =? toLowerCase category)%string)
                    (categories (item newsItem)))
          data))
    (fun error => console_error "Error filtering news by category:" error ;;; ret []).

(** [ReturnNewsFromSource]. *)
Definition ReturnNewsFromSource (source0 : string) : Method (list NewsItem) :=
  try_catch
    (data <- fetchNewsData ;;
     ret (filter (fun newsItem =>
            (toLowerCase (source (item newsItem)) =? toLowerCase source0)%string)
          data))
    (fun error => console_error "Error filtering news by source:" error ;;; ret []).

(** [SearchNewsByKeyword]. *)
Definition SearchNewsByKeyword (keyword : string) : Method (list NewsItem) :=
  try_catch
    (data <- fetchNewsData ;;
     let searchTerm := toLowerCase keyword in
     ret (filter (fun newsItem =>
            includes (toLowerCase (title (item newsItem))) searchTerm
            || includes (toLowerCase (description (item newsItem))) searchTerm)
          data))
    (fun error => console_error "Error searching news:" error ;;; ret []).

(** [ReturnNewsByAuthor]. *)
Definition ReturnNewsByAuthor (authorName : string) : Method (list NewsItem) :=
  try_catch
    (data <- fetchNewsData ;;
     let searchName := toLowerCase authorName in
     ret (filter (fun newsItem =>
            existsb (fun author => includes (toLowerCase (name author)) searchName)
                    (authors (item newsItem)))
          data))
    (fun error => console_error "Error filtering by author:" error ;;; ret []).

(** The comparator of [ReturnLatestNews]: the time of [b] minus the time of
    [a]. *)
Definition by_published_desc (a b : NewsItem) : option Z :=
  Number_sub (Date_getTime (published (item b))) (Date_getTime (published (item a))).

(** [ReturnLatestNews]; [None] is the call without an argument, for which
    [limit] is 10. *)
Definition ReturnLatestNews (limit : option Z) : Method (list NewsItem) :=
  let limit := match limit with Some v => v | None => 10 end in
  try_catch
    (data <- fetchNewsData ;;
     ret (slice (sort data by_published_desc) 0 limit))
    (fun error => console_error "Error fetching latest news:" error ;;; ret []).

(** [ReturnNewsInDateRange]. *)
Definition ReturnNewsInDateRange (startDate endDate : Date) : Method (list NewsItem) :=
  try_catch
    (data <- fetchNewsData ;;
     ret (filter (fun newsItem =>
            let publishDate : Date := Date_getTime (published (item newsItem)) in
            Date_ge publishDate startDate && Date_le publishDate endDate)
          data))
    (fun error => console_error "Error filtering by date range:" error ;;; ret []).

(** [ReturnNewsWithMultipleCategories]. *)
Definition ReturnNewsWithMultipleCategories (categories0 : list string) : Method (list NewsItem) :=
  try_catch
    (data <- fetchNewsData ;;
     let searchCategories := map toLowerCase categories0 in
     ret (filter (fun newsItem =>
            forallb (fun searchCat =>
                       existsb (fun cat => (toLowerCase cat =? searchCat)%string)
                               (categories (item newsItem)))
                    searchCategories)
          data))
    (fun error => console_error "Error filtering by multiple categories:" error ;;; ret []).

(** The map [sourceCount] after the [forEach] loop of
    [ReturnTopSourcesByArticleCount]. *)
Definition sourceCount (data : list NewsItem) : JsMap :=
  fold_left (fun m newsItem => count_up m (source (item newsItem))) data [].

(** [ReturnTopSourcesByArticleCount]; [None] is the call without an
    argument, for which [limit] is 5. *)
Definition ReturnTopSourcesByArticleCount (limit : option Z) : Method (list SourceCount) :=
  let limit := match limit with Some v => v | None => 5 end in
  try_catch
    (data <- fetchNewsData ;;
     ret (map (fun entry => {| sc_source := fst entry; sc_count := snd entry |})
              (slice (sort (sourceCount data) by_count_desc) 0 limit)))
    (fun error => console_error "Error calculating top sources:" error ;;; ret []).

End Methods.

(* ================================================================= *)
(** ** The URL as the specification words it *)

(** The decimal digit of [n], for [n] from 0 to 9. *)
Definition digit (n : Z) : ascii := ascii_of_nat (48 + Z.to_nat n).

(** The tens digit and the units digit of [n]. *)
Definition two_digits (n : Z) : string :=
  String (digit (n / 10)) (String (digit (n mod 10)) EmptyString).

(** [text] is the zero-padded two-digit decimal rendering of [n]. *)
Definition two_digit_rendering (n : Z) (text : string) : Prop :=
  0 <= n <= 99 /\ text = two_digits n.

(** [monthName] is the English month name at index [month - 1], months
    counted from 1. *)
Definition month_name_of (month : Z) (monthName : string) : Prop :=
  1 <= month /\ nth_error monthNames (Z.to_nat (month - 1)) = Some monthName.

(** [u] is [{baseUrl}/{MonthName}-{year}/{DD}-{MM}-{year}.json]. *)
Definition url_as_specified (this : NewsFetcher) (u : string) : Prop :=
  exists monthName DD MM,
    month_name_of (month this) monthName
    /\ two_digit_rendering (date this) DD
    /\ two_digit_rendering (month this) MM
    /\ u = baseUrl this ++ "/" ++ monthName ++ "-" ++ Number_toString (year this)
             ++ "/" ++ DD ++ "-" ++ MM ++ "-" ++ Number_toString (year this) ++ ".json".

(** The range tests of [setDate], as the specification words them. *)
Definition date_in_range (date : Z) : Prop := 1 <= date <= 31.
Definition month_in_range (month : Z) : Prop := 1 <= month <= 12.
Definition year_in_range (year : Z) : Prop := 2000 <= year <= 2100.

(* ================================================================= *)
(** ** What a fetch yields *)

(** The fetch fails: a network error, a status outside 200..299, or a body
    that does not decode. *)
Definition fetch_fails (outcome : FetchOutcome) : Prop :=
  match outcome with
  | Rejected _ => True
  | Resolved response =>
      ~ (200 <= status response <= 299) \/ exists e, body response = Malformed e
  end.

(** The fetch of the URL of [this] yields the collection [data]. *)
Definition fetches (fetch : string -> FetchOutcome) (this : NewsFetcher)
    (data : list NewsItem) : Prop :=
  exists response,
    fetch (createUrl this) = Resolved response
    /\ 200 <= status response <= 299
    /\ body response = Parsed data.

(** The collection a fetch outcome stands for: the decoded array of a
    response with a status from 200 to 299, and nothing otherwise. *)
Definition snapshot (outcome : FetchOutcome) : list NewsItem :=
  match outcome with
  | Rejected _ => []
  | Resolved response =>
      if ok response
      then match body response with
           | Malformed _ => []
           | Parsed data => data
           end
      else []
  end.

(** Two receivers hold the same date context and base URL. *)
Definition same_context (a b : NewsFetcher) : Prop :=
  date a = date b /\ month a = month b /\ year a = year b /\ baseUrl a = baseUrl b.

(* ================================================================= *)
(** ** Order and counting in arrays *)

(** The position of the first [x] in [l], and the length of [l] when there
    is none. *)
Fixpoint index_of (x : string) (l : list string) : nat :=
  match l with
  | [] => O
  | y :: l' => if (y =? x)%string then O else S (index_of x l')
  end.

(** Some [x] of [l] comes before some [y] of [l]. *)
Fixpoint precedes {A : Type} (x y : A) (l : list A) : Prop :=
  match l with
  | [] => False
  | z :: l' => (z = x /\ In y l') \/ precedes x y l'
  end.

(** How many times [x] occurs in [l], as a number. *)
Definition occurrences (x : string) (l : list string) : Z :=
  Z.of_nat (count_occ string_dec l x).

(** The categories of all the items, in the order the nested loops of
    [ReturnAllTopics] visit them. *)
Definition all_categories (data : list NewsItem) : list string :=
  flat_map (fun newsItem => categories (item newsItem)) data.

(** The sources of the items, in the order of the items. *)
Definition all_sources (data : list NewsItem) : list string :=
  map (fun newsItem => source (item newsItem)) data.

(** The map after [count_up] has run over the keys of [l] from left to
    right. *)
Definition tally (l : list string) : JsMap :=
  fold_left count_up l [].

(** An item has the topic [category]: one of its categories equals
    [category] once both are lowercased. *)
Definition has_topic (category : string) (newsItem : NewsItem) : Prop :=
  exists cat,
    In cat (categories (item newsItem)) /\ toLowerCase cat = toLowerCase category.

(* ================================================================= *)
(** ** The latest news as the specification words it *)

(** The [published] text of an item is a date. *)
Definition valid_date (Date_getTime : string -> option Z) (newsItem : NewsItem) : Prop :=
  Date_getTime (published (item newsItem)) <> None.




(* ================================================================= *)
(** ** Sample values *)

Definition sample_item (source0 : string) (categories0 : list string)
    (published0 : string) : NewsItem :=
  {| hash := published0;
     item := {| title := "Title"; description := "Description"; links := [];
                categories := categories0; source := source0;
                authors := [ {| name := "Ada" |} ];
                image := {| url := "" |};
                published := published0 |} |}.

Definition sample_receiver : NewsFetcher :=
  constructor "https://api.news.com" 12 11 2024.

Definition sample_runtime : Runtime :=
  {| receiver := sample_receiver; console := [] |}.

(** A network that serves [data] under the URL of [sample_receiver] and
    answers 404 elsewhere. *)
Definition serving (data : list NewsItem) (url : string) : FetchOutcome :=
  if (url =? "https://api.news.com/November-2024/12-11-2024.json")%string
  then Resolved {| status := 200; body := Parsed data |}
  else Resolved {| status := 404; body := Malformed (Error "Unexpected token") |}.

(** A network that answers 500 whatever is asked. *)
Definition failing (url : string) : FetchOutcome :=
  Resolved {| status := 500; body := Parsed [] |}.

(** A clock that knows three dates. *)
Definition sample_clock (text : string) : option Z :=
  if (text =? "2024-11-10T08:00:00Z")%string then Some 1731225600000
  else if (text =? "2024-11-11T08:00:00Z")%string then Some 1731312000000
  else if (text =? "2024-11-12T08:00:00Z")%string then Some 1731398400000
  else None.

Definition item_T1 : NewsItem :=
  sample_item "BBC" ["World"; "Sports"] "2024-11-10T08:00:00Z".
Definition item_T2 : NewsItem :=
  sample_item "bbc" ["sports"; "Tech"; "Local"] "2024-11-11T08:00:00Z".
Definition item_T3 : NewsItem :=
  sample_item "BBC" ["Tech"; "SPORTS"; "Sportsmanship"] "2024-11-12T08:00:00Z".

Definition sample_data : list NewsItem := [item_T1; item_T2; item_T3].

(* ================================================================= *)
(** ** Further notions the properties below are stated with *)

(** The date context of [this] is within the ranges [setDate] accepts. *)
Definition in_setter_ranges (this : NewsFetcher) : Prop :=
  date_in_range (date this) /\ month_in_range (month this) /\ year_in_range (year this).

(** [t] occurs in [s] as a run of consecutive characters. *)
Definition is_substring (t s : string) : Prop :=
  exists before after, s = before ++ t ++ after.

(** The sum of a list of counts. *)
Definition sum_counts (counts : list Z) : Z :=
  fold_right Z.add 0 counts.

(** The entry of a result of [ReturnTopSourcesByArticleCount] for a map
    entry. *)
Definition to_SourceCount (entry : string * Z) : SourceCount :=
  {| sc_source := fst entry; sc_count := snd entry |}.

(** An item was published between [startTime] and [endTime], both
    included. *)
Definition published_within (Date_getTime : string -> option Z)
    (startTime endTime : Z) (newsItem : NewsItem) : Prop :=
  exists t,
    Date_getTime (published (item newsItem)) = Some t /\ startTime <= t <= endTime.

(* ================================================================= *)
(** ** The date context over all JavaScript numbers *)

(** The fields [date], [month] and [year] are declared [number], so they can
    hold fractions, [NaN] and the infinities; nothing in the class turns
    them into integers.  This module embeds the constructor, [createUrl] and
    [setDate] over all number values.  The definitions above are these on
    integers ([setDate_on_integers] and [createUrl_on_integers] below). *)
Module Numeric.

(** A value of type [number]: a finite number [numerator / denominator]
    (every finite double is such a fraction), [NaN], or an infinity,
    [Infinity true] above and [Infinity false] below every finite number. *)
Inductive number : Type :=
| Finite (numerator : Z) (denominator : positive)
| NaN
| Infinity (upward : bool).

Definition of_Z (z : Z) : number := Finite z 1.

(** [x < y]: false when either side is [NaN]. *)
Definition lt (x y : number) : bool :=
  match x, y with
  | Finite a b, Finite c d => a * Z.pos d <? c * Z.pos b
  | Finite _ _, Infinity upward => upward
  | Infinity upward, Finite _ _ => negb upward
  | Infinity upward, Infinity upward' => negb upward && upward'
  | _, _ => false
  end.

(** [x > y]. *)
Definition gt (x y : number) : bool := lt y x.

(** [x - y]. *)
Definition sub (x y : number) : number :=
  match x, y with
  | Finite a b, Finite c d => Finite (a * Z.pos d - c * Z.pos b) (b * d)
  | Finite _ _, Infinity upward => Infinity (negb upward)
  | Infinity upward, Finite _ _ => Infinity upward
  | Infinity upward, Infinity upward' =>
      if Bool.eqb upward upward' then NaN else Infinity upward
  | _, _ => NaN
  end.

(** The integer a number is, when it is one. *)
Definition as_integer (x : number) : option Z :=
  match x with
  | Finite n d => if n mod Z.pos d =? 0 then Some (n / Z.pos d) else None
  | _ => None
  end.

(** [a[i]] for a number [i]: an element when [i] is an integer inside the
    array, [undefined] for every other number. *)
Definition Array_get {A : Type} (a : list A) (i : number) : option A :=
  match as_integer i with
  | Some z => Js.Array_get a z
  | None => None
  end.

Section Rendering.

(** What [Number.prototype.toString] gives for a finite number that is not
    an integer: the digits are the host's business and stay open here. *)
Variable render_fraction : Z -> positive -> string.

(** [Number.prototype.toString]. *)
Definition Number_toString (x : number) : string :=
  match as_integer x with
  | Some z => Js.Number_toString z
  | None =>
      match x with
      | Finite n d => render_fraction n d
      | NaN => "NaN"
      | Infinity true => "Infinity"
      | Infinity false => "-Infinity"
      end
  end.

Record NewsFetcher := {
  baseUrl : string;
  month : number;
  year : number;
  date : number
}.

(** The constructor stores its arguments and validates nothing. *)
Definition constructor (baseUrl : string) (date month year : number) : NewsFetcher :=
  {| baseUrl := baseUrl; month := month; year := year; date := date |}.

(** [createUrl]. *)
Definition createUrl (this : NewsFetcher) : string :=
  let monthString := Array_get monthNames (sub (month this) (of_Z 1)) in
  let paddedDate := padStart (Number_toString (date this)) 2 "0" in
  let paddedMonth := padStart (Number_toString (month this)) 2 "0" in
  baseUrl this ++ "/" ++ template_of monthString ++ "-" ++ Number_toString (year this)
    ++ "/" ++ paddedDate ++ "-" ++ paddedMonth ++ "-" ++ Number_toString (year this)
    ++ ".json".

End Rendering.

(** [setDate], as a function of the receiver to a completion and the
    receiver afterwards: the three range tests, then the three
    assignments. *)
Definition setDate (date month year : number) (this : NewsFetcher)
    : Completion unit * NewsFetcher :=
  if lt date (of_Z 1) || gt date (of_Z 31) then (Thrown (Error "Invalid date"), this)
  else if lt month (of_Z 1) || gt month (of_Z 12) then (Thrown (Error "Invalid month"), this)
  else if lt year (of_Z 2000) || gt year (of_Z 2100) then (Thrown (Error "Invalid year"), this)
  else (Returned tt,
        {| baseUrl := baseUrl this; month := month; year := year; date := date |}).

(** [lo <= x <= hi]: a number within a range is a finite number (or an
    infinity, never) between the bounds; [NaN] is in no range. *)
Definition in_range (lo hi : Z) (x : number) : Prop :=
  match x with
  | Finite n d => lo * Z.pos d <= n <= hi * Z.pos d
  | NaN => False
  | Infinity _ => False
  end.

(** [x] is a number below [lo] or above [hi]: what a range test of
    [setDate] looks for. *)
Definition out_of_range (lo hi : Z) (x : number) : Prop :=
  x <> NaN /\ ~ in_range lo hi x.

End Numeric.

(** A capital letter from A to Z, and a text that has one. *)
Definition is_uppercase (c : ascii) : bool :=
  let n := nat_of_ascii c in (65 <=? n)%nat && (n <=? 90)%nat.

Fixpoint has_uppercase (s : string) : bool :=
  match s with
  | EmptyString => false
  | String c rest => is_uppercase c || has_uppercase rest
  end.

(** A receiver of the integer model as a receiver over all numbers. *)
Definition numeric_of (this : NewsFetcher) : Numeric.NewsFetcher :=
  Numeric.constructor (baseUrl this) (Numeric.of_Z (date this))
                      (Numeric.of_Z (month this)) (Numeric.of_Z (year this)).

(* ================================================================= *)
(** ** createUrl *)

Lemma padStart_two_digits (n : Z) :
  0 <= n <= 99 -> padStart (Number_toString n) 2 "0" = two_digits n.
Proof.
  intros Hn.
  assert (Hall : forallb (fun k => (padStart (Number_toString (Z.of_nat k)) 2 "0"
                                    =? two_digits (Z.of_nat k))%string)
                         (seq 0 100) = true) by (vm_compute; reflexivity).
  rewrite forallb_forall in Hall.
  specialize (Hall (Z.to_nat n)).
  rewrite Z2Nat.id in Hall by lia.
  apply String.eqb_eq, Hall, in_seq. lia.
Qed.

Lemma Array_get_Some_iff {A : Type} (a : list A) (i : Z) :
  Array_get a i <> None <-> 0 <= i < Z.of_nat (List.length a).
Proof.
  unfold Array_get. destruct (Z.ltb_spec i 0) as [Hneg | Hpos].
  - split; [congruence | lia].
  - rewrite nth_error_Some. lia.
Qed.

Lemma Array_get_monthNames_in_range (m : Z) :
  1 <= m <= 12 ->
  exists monthName,
    Array_get monthNames (m - 1) = Some monthName
    /\ nth_error monthNames (Z.to_nat (m - 1)) = Some monthName
    /\ In monthName monthNames.
Proof.
  intros Hm. unfold Array_get.
  destruct (Z.ltb_spec (m - 1) 0) as [Hneg | _]; [lia |].
  destruct (nth_error monthNames (Z.to_nat (m - 1))) as [monthName |] eqn:Hnth.
  - exists monthName. repeat split. eapply nth_error_In, Hnth.
  - apply nth_error_None in Hnth. simpl in Hnth. lia.
Qed.

Lemma Array_get_monthNames_out_of_range (m : Z) :
  ~ (1 <= m <= 12) -> Array_get monthNames (m - 1) = None.
Proof.
  intros Hm.
  destruct (Array_get monthNames (m - 1)) as [monthName |] eqn:Hget; [| reflexivity].
  exfalso. apply Hm.
  assert (Hin : 0 <= m - 1 < Z.of_nat (List.length monthNames))
    by (apply Array_get_Some_iff; congruence).
  simpl in Hin. lia.
Qed.




(* ================================================================= *)
(** ** setDate *)

(** [setDate] in one step: the first range test that fails decides the
    error, and the run-time state is touched only when all three pass. *)
Lemma setDate_run (d m y : Z) (rt : Runtime) :
  setDate d m y rt =
  if (d <? 1) || (d >? 31) then (Thrown (Error "Invalid date"), rt)
  else if (m <? 1) || (m >? 12) then (Thrown (Error "Invalid month"), rt)
  else if (y <? 2000) || (y >? 2100) then (Thrown (Error "Invalid year"), rt)
  else (Returned tt,
        {| receiver := {| baseUrl := baseUrl (receiver rt);
                          month := m; year := y; date := d |};
           console := console rt |}).
Proof.
  unfold setDate.
  destruct ((d <? 1) || (d >? 31)); [reflexivity |].
  destruct ((m <? 1) || (m >? 12)); [reflexivity |].
  destruct ((y <? 2000) || (y >? 2100)); reflexivity.
Qed.

Lemma in_range_test (lo hi v : Z) :
  (v <? lo) || (v >? hi) = false <-> lo <= v <= hi.
Proof.
  rewrite orb_false_iff, Z.ltb_ge, Z.gtb_ltb, Z.ltb_ge. lia.
Qed.

Lemma setDate_returned_in_range (d m y : Z) (rt rt' : Runtime) :
  setDate d m y rt = (Returned tt, rt') ->
  date_in_range d /\ month_in_range m /\ year_in_range y
  /\ rt' = {| receiver := {| baseUrl := baseUrl (receiver rt);
                             month := m; year := y; date := d |};
              console := console rt |}.
Proof.
  rewrite setDate_run.
  destruct ((d <? 1) || (d >? 31)) eqn:Hd; [discriminate |].
  destruct ((m <? 1) || (m >? 12)) eqn:Hm; [discriminate |].
  destruct ((y <? 2000) || (y >? 2100)) eqn:Hy; [discriminate |].
  apply in_range_test in Hd, Hm, Hy.
  intros Hrun. inversion Hrun.
  unfold date_in_range, month_in_range, year_in_range. intuition auto.
Qed.

(** C3: a [setDate] that throws leaves date, month and year (and the rest of
    the state) as they were; one that returns leaves them equal to its
    arguments. *)
Theorem setDate_atomic (d m y : Z) (rt : Runtime) :
  (forall e rt', setDate d m y rt = (Thrown e, rt') ->
                 date (receiver rt') = date (receiver rt)
                 /\ month (receiver rt') = month (receiver rt)
                 /\ year (receiver rt') = year (receiver rt)
                 /\ rt' = rt)
  /\ (forall rt', setDate d m y rt = (Returned tt, rt') ->
                  date (receiver rt') = d
                  /\ month (receiver rt') = m
                  /\ year (receiver rt') = y
                  /\ baseUrl (receiver rt') = baseUrl (receiver rt)).
Proof.
  split.
  - intros e rt'. rewrite setDate_run.
    destruct ((d <? 1) || (d >? 31));
      [| destruct ((m <? 1) || (m >? 12));
         [| destruct ((y <? 2000) || (y >? 2100)) ] ];
      intros Hrun; inversion Hrun; subst; auto.
  - intros rt' Hrun.
    apply setDate_returned_in_range in Hrun as (_ & _ & _ & ->).
    simpl. auto.
Qed.

Lemma setDate_atomic_witness :
  let rt := {| receiver := constructor "https://api.news.com" 12 11 2024; console := [] |} in
  snd (setDate 32 1 2024 rt) = rt
  /\ date (receiver (snd (setDate 15 6 2023 rt))) = 15
  /\ month (receiver (snd (setDate 15 6 2023 rt))) = 6
  /\ year (receiver (snd (setDate 15 6 2023 rt))) = 2023.
Proof.
  intros rt. split.
  - exact (proj2 (proj2 (proj2
             (proj1 (setDate_atomic 32 1 2024 rt) (Error "Invalid date") rt eq_refl)))).
  - destruct (proj2 (setDate_atomic 15 6 2023 rt) _ eq_refl) as (Hd & Hm & Hy & _).
    repeat split; assumption.
Defined.

(* ================================================================= *)
(** ** Fetching, and the shape every query has *)

Section Queries.

Variable fetch : string -> FetchOutcome.
Variable Date_getTime : string -> option Z.

Lemma ok_iff (response : Response) :
  ok response = true <-> 200 <= status response <= 299.
Proof.
  unfold ok. rewrite andb_true_iff, !Z.leb_le. tauto.
Qed.

Lemma snapshot_fails (outcome : FetchOutcome) :
  fetch_fails outcome -> snapshot outcome = [].
Proof.
  destruct outcome as [e | response]; simpl; [reflexivity |].
  intros [Hstatus | [e Hbody]].
  - destruct (ok response) eqn:Hok; [| reflexivity].
    apply ok_iff in Hok. contradiction.
  - rewrite Hbody. destruct (ok response); reflexivity.
Qed.

Lemma snapshot_fetches (this : NewsFetcher) (data : list NewsItem) :
  fetches fetch this data -> snapshot (fetch (createUrl this)) = data.
Proof.
  intros (response & -> & Hstatus & Hbody). simpl.
  apply ok_iff in Hstatus. rewrite Hstatus, Hbody. reflexivity.
Qed.

(** [fetchNewsData] never throws: it returns the snapshot, and changes
    nothing but the console. *)
Lemma fetchNewsData_run (rt : Runtime) :
  exists log,
    fetchNewsData fetch rt
    = (Returned (snapshot (fetch (createUrl (receiver rt)))),
       {| receiver := receiver rt; console := console rt ++ log |}).
Proof.
  unfold fetchNewsData, try_catch, bind, get_this, await_fetch, await_json,
    console_error, ret, throw, snapshot.
  destruct rt as [this out]. simpl.
  destruct (fetch (createUrl this)) as [e | response]; simpl.
  - eexists. reflexivity.
  - destruct (ok response); simpl.
    + destruct (body response); simpl.
      * eexists. reflexivity.
      * exists []. rewrite app_nil_r. reflexivity.
    + eexists. reflexivity.
Qed.

(** A query is [fetchNewsData] followed by a transform [f] that does not
    throw, inside a [try]: it returns [f] of the snapshot and leaves the
    receiver alone. *)
Lemma query_run {A : Type} (f : list NewsItem -> A) (handler : JsError -> Method A)
    (rt : Runtime) :
  exists rt',
    try_catch (data <- fetchNewsData fetch ;; ret (f data)) handler rt
    = (Returned (f (snapshot (fetch (createUrl (receiver rt))))), rt')
    /\ receiver rt' = receiver rt.
Proof.
  destruct (fetchNewsData_run rt) as [log Hfetch].
  unfold try_catch, bind, ret. rewrite Hfetch.
  eexists. split; reflexivity.
Qed.

Lemma slice_nil {A : Type} (start end_ : Z) : slice (@nil A) start end_ = [].
Proof.
  unfold slice. rewrite skipn_nil, firstn_nil. reflexivity.
Qed.

Lemma ReturnAllSources_run (rt : Runtime) :
  exists rt',
    ReturnAllSources fetch rt
    = (Returned (Set_new (map (fun item0 => source (item item0))
                              (snapshot (fetch (createUrl (receiver rt)))))), rt')
    /\ receiver rt' = receiver rt.
Proof.
  exact (query_run (fun data => Set_new (map (fun item0 => source (item item0)) data)) _ rt).
Qed.

Lemma ReturnAllTopics_run (rt : Runtime) :
  exists rt',
    ReturnAllTopics fetch rt
    = (Returned (map fst (sort (categoryFrequency
                                  (snapshot (fetch (createUrl (receiver rt)))))
                               by_count_desc)), rt')
    /\ receiver rt' = receiver rt.
Proof.
  exact (query_run (fun data => map fst (sort (categoryFrequency data) by_count_desc)) _ rt).
Qed.

Lemma ReturnNewsWithATopic_run (category : string) (rt : Runtime) :
  exists rt',
    ReturnNewsWithATopic fetch category rt
    = (Returned (filter (fun newsItem =>
                   existsb (fun cat => (toLowerCase cat =? toLowerCase category)%string)
                           (categories (item newsItem)))
                 (snapshot (fetch (createUrl (receiver rt))))), rt')
    /\ receiver rt' = receiver rt.
Proof.
  exact (query_run (fun data => filter _ data) _ rt).
Qed.

Lemma ReturnNewsFromSource_run (source0 : string) (rt : Runtime) :
  exists rt',
    ReturnNewsFromSource fetch source0 rt
    = (Returned (filter (fun newsItem =>
                   (toLowerCase (source (item newsItem)) =? toLowerCase source0)%string)
                 (snapshot (fetch (createUrl (receiver rt))))), rt')
    /\ receiver rt' = receiver rt.
Proof.
  exact (query_run (fun data => filter _ data) _ rt).
Qed.

Lemma SearchNewsByKeyword_run (keyword : string) (rt : Runtime) :
  exists rt',
    SearchNewsByKeyword fetch keyword rt
    = (Returned (filter (fun newsItem =>
                   includes (toLowerCase (title (item newsItem))) (toLowerCase keyword)
                   || includes (toLowerCase (description (item newsItem)))
                               (toLowerCase keyword))
                 (snapshot (fetch (createUrl (receiver rt))))), rt')
    /\ receiver rt' = receiver rt.
Proof.
  exact (query_run (fun data => filter _ data) _ rt).
Qed.

Lemma ReturnNewsByAuthor_run (authorName : string) (rt : Runtime) :
  exists rt',
    ReturnNewsByAuthor fetch authorName rt
    = (Returned (filter (fun newsItem =>
                   existsb (fun author =>
                              includes (toLowerCase (name author)) (toLowerCase authorName))
                           (authors (item newsItem)))
                 (snapshot (fetch (createUrl (receiver rt))))), rt')
    /\ receiver rt' = receiver rt.
Proof.
  exact (query_run (fun data => filter _ data) _ rt).
Qed.

Lemma ReturnLatestNews_run (limit : option Z) (rt : Runtime) :
  exists rt',
    ReturnLatestNews fetch Date_getTime limit rt
    = (Returned (slice (sort (snapshot (fetch (createUrl (receiver rt))))
                             (by_published_desc Date_getTime))
                       0 (match limit with Some v => v | None => 10 end)), rt')
    /\ receiver rt' = receiver rt.
Proof.
  exact (query_run (fun data => slice (sort data (by_published_desc Date_getTime)) 0 _) _ rt).
Qed.

Lemma ReturnNewsInDateRange_run (startDate endDate : Date) (rt : Runtime) :
  exists rt',
    ReturnNewsInDateRange fetch Date_getTime startDate endDate rt
    = (Returned (filter (fun newsItem =>
                   Date_ge (Date_getTime (published (item newsItem))) startDate
                   && Date_le (Date_getTime (published (item newsItem))) endDate)
                 (snapshot (fetch (createUrl (receiver rt))))), rt')
    /\ receiver rt' = receiver rt.
Proof.
  exact (query_run (fun data => filter _ data) _ rt).
Qed.

Lemma ReturnNewsWithMultipleCategories_run (categories0 : list string) (rt : Runtime) :
  exists rt',
    ReturnNewsWithMultipleCategories fetch categories0 rt
    = (Returned (filter (fun newsItem =>
                   forallb (fun searchCat =>
                              existsb (fun cat => (toLowerCase cat =? searchCat)%string)
                                      (categories (item newsItem)))
                           (map toLowerCase categories0))
                 (snapshot (fetch (createUrl (receiver rt))))), rt')
    /\ receiver rt' = receiver rt.
Proof.
  exact (query_run (fun data => filter _ data) _ rt).
Qed.

Lemma ReturnTopSourcesByArticleCount_run (limit : option Z) (rt : Runtime) :
  exists rt',
    ReturnTopSourcesByArticleCount fetch limit rt
    = (Returned (map (fun entry => {| sc_source := fst entry; sc_count := snd entry |})
                     (slice (sort (sourceCount (snapshot (fetch (createUrl (receiver rt)))))
                                  by_count_desc)
                            0 (match limit with Some v => v | None => 5 end))), rt')
    /\ receiver rt' = receiver rt.
Proof.
  exact (query_run (fun data => map _ (slice (sort (sourceCount data) by_count_desc) 0 _)) _ rt).
Qed.

End Queries.

(** A tactic for a goal about the run of one query: it brings in what the
    query returns and that the receiver is untouched. *)
Ltac run_query lemma :=
  let rt' := fresh "rt'" in
  let Hrun := fresh "Hrun" in
  let Hsame := fresh "Hsame" in
  destruct lemma as (rt' & Hrun & Hsame); rewrite Hrun; simpl fst; simpl snd.

(** C4: when the fetch fails (a network error, a status outside 200..299 or
    a body that does not decode), each of the ten queries returns the empty
    array and does not throw. *)
Theorem queries_swallow_fetch_failure
    (fetch : string -> FetchOutcome) (Date_getTime : string -> option Z) (rt : Runtime) :
  fetch_fails (fetch (createUrl (receiver rt))) ->
  fst (ReturnAllSources fetch rt) = Returned []
  /\ fst (ReturnAllTopics fetch rt) = Returned []
  /\ (forall category, fst (ReturnNewsWithATopic fetch category rt) = Returned [])
  /\ (forall source0, fst (ReturnNewsFromSource fetch source0 rt) = Returned [])
  /\ (forall keyword, fst (SearchNewsByKeyword fetch keyword rt) = Returned [])
  /\ (forall authorName, fst (ReturnNewsByAuthor fetch authorName rt) = Returned [])
  /\ (forall limit, fst (ReturnLatestNews fetch Date_getTime limit rt) = Returned [])
  /\ (forall startDate endDate,
         fst (ReturnNewsInDateRange fetch Date_getTime startDate endDate rt) = Returned [])
  /\ (forall categories0,
         fst (ReturnNewsWithMultipleCategories fetch categories0 rt) = Returned [])
  /\ (forall limit, fst (ReturnTopSourcesByArticleCount fetch limit rt) = Returned []).
Proof.
  intros Hfails. apply snapshot_fails in Hfails.
  repeat split; intros.
  - run_query (ReturnAllSources_run fetch rt). rewrite Hfails. reflexivity.
  - run_query (ReturnAllTopics_run fetch rt). rewrite Hfails. reflexivity.
  - run_query (ReturnNewsWithATopic_run fetch category rt). rewrite Hfails. reflexivity.
  - run_query (ReturnNewsFromSource_run fetch source0 rt). rewrite Hfails. reflexivity.
  - run_query (SearchNewsByKeyword_run fetch keyword rt). rewrite Hfails. reflexivity.
  - run_query (ReturnNewsByAuthor_run fetch authorName rt). rewrite Hfails. reflexivity.
  - run_query (ReturnLatestNews_run fetch Date_getTime limit rt). rewrite Hfails.
    simpl sort. rewrite slice_nil. reflexivity.
  - run_query (ReturnNewsInDateRange_run fetch Date_getTime startDate endDate rt).
    rewrite Hfails. reflexivity.
  - run_query (ReturnNewsWithMultipleCategories_run fetch categories0 rt).
    rewrite Hfails. reflexivity.
  - run_query (ReturnTopSourcesByArticleCount_run fetch limit rt). rewrite Hfails.
    simpl sort. rewrite slice_nil. reflexivity.
Qed.

(** C8: no query changes the receiver: date, month, year and base URL are the
    same after the call as before it, whatever the fetch does. *)
Theorem queries_preserve_context
    (fetch : string -> FetchOutcome) (Date_getTime : string -> option Z) (rt : Runtime) :
  same_context (receiver (snd (ReturnAllSources fetch rt))) (receiver rt)
  /\ same_context (receiver (snd (ReturnAllTopics fetch rt))) (receiver rt)
  /\ (forall category,
         same_context (receiver (snd (ReturnNewsWithATopic fetch category rt))) (receiver rt))
  /\ (forall source0,
         same_context (receiver (snd (ReturnNewsFromSource fetch source0 rt))) (receiver rt))
  /\ (forall keyword,
         same_context (receiver (snd (SearchNewsByKeyword fetch keyword rt))) (receiver rt))
  /\ (forall authorName,
         same_context (receiver (snd (ReturnNewsByAuthor fetch authorName rt))) (receiver rt))
  /\ (forall limit,
         same_context (receiver (snd (ReturnLatestNews fetch Date_getTime limit rt)))
                      (receiver rt))
  /\ (forall startDate endDate,
         same_context
           (receiver (snd (ReturnNewsInDateRange fetch Date_getTime startDate endDate rt)))
           (receiver rt))
  /\ (forall categories0,
         same_context (receiver (snd (ReturnNewsWithMultipleCategories fetch categories0 rt)))
                      (receiver rt))
  /\ (forall limit,
         same_context (receiver (snd (ReturnTopSourcesByArticleCount fetch limit rt)))
                      (receiver rt)).
Proof.
  assert (Hrefl : forall a b : NewsFetcher, a = b -> same_context a b)
    by (intros a b ->; repeat split).
  split; [| split; [| split; [| split; [| split; [| split; [| split; [| split; [| split]]]]]]]];
    intros; apply Hrefl.
  - run_query (ReturnAllSources_run fetch rt). assumption.
  - run_query (ReturnAllTopics_run fetch rt). assumption.
  - run_query (ReturnNewsWithATopic_run fetch category rt). assumption.
  - run_query (ReturnNewsFromSource_run fetch source0 rt). assumption.
  - run_query (SearchNewsByKeyword_run fetch keyword rt). assumption.
  - run_query (ReturnNewsByAuthor_run fetch authorName rt). assumption.
  - run_query (ReturnLatestNews_run fetch Date_getTime limit rt). assumption.
  - run_query (ReturnNewsInDateRange_run fetch Date_getTime startDate endDate rt).
    assumption.
  - run_query (ReturnNewsWithMultipleCategories_run fetch categories0 rt). assumption.
  - run_query (ReturnTopSourcesByArticleCount_run fetch limit rt). assumption.
Qed.

(* ================================================================= *)
(** ** Facts about order in lists *)

Section Precedes.

Context {A : Type}.

Lemma precedes_In (x y : A) (l : list A) :
  precedes x y l -> In x l /\ In y l.
Proof.
  induction l as [| z l IH]; simpl; [tauto |].
  intros [[-> Hy] | Hprec]; [auto |].
  apply IH in Hprec. tauto.
Qed.

Lemma precedes_map {B : Type} (f : A -> B) (x y : A) (l : list A) :
  precedes x y l -> precedes (f x) (f y) (map f l).
Proof.
  induction l as [| z l IH]; simpl; [tauto |].
  intros [[-> Hy] | Hprec]; [left | right; auto].
  split; [reflexivity | apply in_map; assumption].
Qed.

Lemma precedes_total (x y : A) (l : list A) :
  In x l -> In y l -> x <> y -> precedes x y l \/ precedes y x l.
Proof.
  induction l as [| z l IH]; simpl; [tauto |].
  intros [-> | Hx] [-> | Hy] Hneq.
  - congruence.
  - left. left. auto.
  - right. left. auto.
  - destruct (IH Hx Hy Hneq); [left | right]; right; assumption.
Qed.

Lemma precedes_sorted (R : A -> A -> Prop) (x y : A) (l : list A) :
  StronglySorted R l -> precedes x y l -> R x y.
Proof.
  induction 1 as [| z l Hsorted IH Hall]; simpl; [tauto |].
  intros [[-> Hy] | Hprec]; [| auto].
  rewrite Forall_forall in Hall. auto.
Qed.

Lemma precedes_filter (p : A -> bool) (x y : A) (l : list A) :
  precedes x y l -> p x = true -> p y = true -> precedes x y (filter p l).
Proof.
  intros Hprec Hx Hy. induction l as [| z l IH]; simpl in *; [tauto |].
  destruct Hprec as [[-> Hin] | Hprec].
  - rewrite Hx. left. split; [reflexivity |]. apply filter_In. auto.
  - destruct (p z); [right |]; auto.
Qed.

Lemma precedes_of_filter (p : A -> bool) (x y : A) (l : list A) :
  precedes x y (filter p l) -> precedes x y l.
Proof.
  induction l as [| z l IH]; simpl; [tauto |].
  destruct (p z); simpl; [| auto].
  intros [[-> Hin] | Hprec]; [left | right; auto].
  split; [reflexivity |]. apply filter_In in Hin. tauto.
Qed.

End Precedes.

Lemma index_of_lt_length (x : string) (l : list string) :
  In x l <-> (index_of x l < List.length l)%nat.
Proof.
  induction l as [| z l IH]; simpl; [lia |].
  destruct (String.eqb_spec z x) as [-> | Hneq].
  - split; [lia | auto].
  - rewrite <- Nat.succ_lt_mono, <- IH. intuition congruence.
Qed.

Lemma index_of_le_length (x : string) (l : list string) :
  (index_of x l <= List.length l)%nat.
Proof.
  induction l as [| z l IH]; simpl; [lia |].
  destruct (z =? x)%string; lia.
Qed.

Lemma index_of_app (x : string) (l r : list string) :
  index_of x (l ++ r)
  = if in_dec string_dec x l then index_of x l else (List.length l + index_of x r)%nat.
Proof.
  induction l as [| z l IH]; simpl; [reflexivity |].
  destruct (String.eqb_spec z x) as [-> | Hneq].
  - destruct (string_dec x x); [reflexivity | congruence].
  - rewrite IH. destruct (string_dec z x); [congruence |].
    destruct (in_dec string_dec x l); reflexivity.
Qed.

Lemma precedes_index_of (x y : string) (l : list string) :
  NoDup l -> precedes x y l -> (index_of x l < index_of y l)%nat.
Proof.
  induction 1 as [| z l Hz Hnodup IH]; simpl; [tauto |].
  intros [[-> Hy] | Hprec].
  - rewrite String.eqb_refl.
    destruct (String.eqb_spec x y) as [-> | _]; [contradiction | lia].
  - destruct (precedes_In _ _ _ Hprec) as [Hx Hy].
    destruct (String.eqb_spec z x) as [-> | _]; [contradiction |].
    destruct (String.eqb_spec z y) as [-> | _]; [contradiction |].
    apply IH in Hprec. lia.
Qed.

Lemma index_of_precedes (x y : string) (l : list string) :
  In y l -> (index_of x l < index_of y l)%nat -> precedes x y l.
Proof.
  induction l as [| z l IH]; simpl; [tauto |].
  destruct (String.eqb_spec z x) as [-> | Hzx].
  - destruct (String.eqb_spec x y) as [-> | Hxy]; [lia |].
    intros [-> | Hy] _; [congruence | left; auto].
  - destruct (String.eqb_spec z y) as [-> | Hzy]; [lia |].
    intros [-> | Hy] Hlt; [congruence |].
    right. apply IH; [assumption | lia].
Qed.

(* ================================================================= *)
(** ** Facts about [sort] and [slice] *)

Section SortFacts.

Context {A : Type}.

Lemma sort_insert_perm (cmp : A -> A -> option Z) (x : A) (l : list A) :
  Permutation (sort_insert cmp x l) (x :: l).
Proof.
  induction l as [| y l IH]; simpl; [reflexivity |].
  destruct (SortCompare cmp x y <=? 0); [reflexivity |].
  rewrite IH. apply perm_swap.
Qed.

Lemma sort_perm (cmp : A -> A -> option Z) (l : list A) :
  Permutation (sort l cmp) l.
Proof.
  induction l as [| x l IH]; simpl; [reflexivity |].
  rewrite sort_insert_perm. apply perm_skip, IH.
Qed.

Lemma sort_In (cmp : A -> A -> option Z) (x : A) (l : list A) :
  In x (sort l cmp) <-> In x l.
Proof.
  split; apply Permutation_in; [| symmetry]; apply sort_perm.
Qed.

Lemma sort_insert_ext (cmp cmp' : A -> A -> option Z) (x : A) (l : list A) :
  (forall y, In y l -> SortCompare cmp x y = SortCompare cmp' x y) ->
  sort_insert cmp x l = sort_insert cmp' x l.
Proof.
  induction l as [| y l IH]; simpl; intros Hagree; [reflexivity |].
  rewrite (Hagree y) by auto. rewrite IH by auto. reflexivity.
Qed.

(** Only the values of the comparator on the elements of the array
    matter. *)
Lemma sort_ext (cmp cmp' : A -> A -> option Z) (l : list A) :
  (forall x y, In x l -> In y l -> SortCompare cmp x y = SortCompare cmp' x y) ->
  sort l cmp = sort l cmp'.
Proof.
  induction l as [| x l IH]; simpl; intros Hagree; [reflexivity |].
  fold (sort l cmp). fold (sort l cmp'). rewrite IH by auto.
  apply sort_insert_ext. intros y Hy. apply sort_In in Hy. auto.
Qed.

(** A comparator that compares ranks: [cmp x y] is at most 0 exactly when
    the rank of [x] is at most the rank of [y]. *)
Variable cmp : A -> A -> option Z.
Variable rank : A -> Z.
Hypothesis cmp_rank : forall x y, (SortCompare cmp x y <=? 0) = (rank x <=? rank y).

Let by_rank (x y : A) : Prop := rank x <= rank y.

Lemma sort_insert_sorted (x : A) (l : list A) :
  StronglySorted by_rank l -> StronglySorted by_rank (sort_insert cmp x l).
Proof.
  induction 1 as [| y l Hsorted IH Hall]; simpl.
  - repeat constructor.
  - rewrite cmp_rank. destruct (Z.leb_spec (rank x) (rank y)) as [Hle | Hgt].
    + constructor; [constructor; assumption |].
      constructor; [exact Hle |].
      eapply Forall_impl; [| exact Hall].
      unfold by_rank. intros z Hz. lia.
    + constructor; [exact IH |].
      rewrite Forall_forall in *. intros z Hz.
      apply (Permutation_in _ (sort_insert_perm cmp x l)) in Hz.
      destruct Hz as [<- | Hz]; [unfold by_rank; lia | auto].
Qed.

Lemma sort_sorted (l : list A) : StronglySorted by_rank (sort l cmp).
Proof.
  induction l as [| x l IH]; simpl; [constructor |].
  apply sort_insert_sorted, IH.
Qed.

Lemma sort_insert_stable (v : Z) (x : A) (l : list A) :
  filter (fun z => rank z =? v) (sort_insert cmp x l)
  = filter (fun z => rank z =? v) (x :: l).
Proof.
  induction l as [| y l IH]; simpl; [reflexivity |].
  rewrite cmp_rank. destruct (Z.leb_spec (rank x) (rank y)) as [Hle | Hgt];
    [reflexivity |].
  simpl in *. rewrite IH.
  destruct (Z.eqb_spec (rank x) v) as [Hx | Hx]; [| reflexivity].
  destruct (Z.eqb_spec (rank y) v) as [Hy | Hy]; [lia | reflexivity].
Qed.

(** The sort is stable: the elements of one rank keep their order. *)
Lemma sort_stable (v : Z) (l : list A) :
  filter (fun z => rank z =? v) (sort l cmp) = filter (fun z => rank z =? v) l.
Proof.
  induction l as [| x l IH]; simpl; [reflexivity |].
  fold (sort l cmp). rewrite sort_insert_stable. simpl. rewrite IH. reflexivity.
Qed.

Lemma sort_precedes_strict (x y : A) (l : list A) :
  In x l -> In y l -> rank x < rank y -> precedes x y (sort l cmp).
Proof.
  intros Hx Hy Hlt.
  destruct (precedes_total x y (sort l cmp)) as [Hxy | Hyx];
    try (apply sort_In; assumption).
  - intros ->. lia.
  - exact Hxy.
  - apply (precedes_sorted by_rank _ _ _ (sort_sorted l)) in Hyx.
    unfold by_rank in Hyx. lia.
Qed.

Lemma sort_precedes_tie (x y : A) (l : list A) :
  precedes x y l -> rank x = rank y -> precedes x y (sort l cmp).
Proof.
  intros Hprec Heq.
  apply (precedes_of_filter (fun z => rank z =? rank x)).
  rewrite sort_stable.
  apply precedes_filter; [exact Hprec | apply Z.eqb_refl | apply Z.eqb_eq; auto].
Qed.

End SortFacts.

Lemma slice_from_start {A : Type} (l : list A) (end_ : Z) :
  slice l 0 end_ = firstn (Z.to_nat (slice_bound (Z.of_nat (List.length l)) end_)) l.
Proof.
  unfold slice. replace (slice_bound (Z.of_nat (List.length l)) 0) with 0.
  - rewrite Z.sub_0_r. reflexivity.
  - unfold slice_bound. simpl. lia.
Qed.

Lemma slice_nonneg {A : Type} (l : list A) (limit : Z) :
  0 <= limit -> slice l 0 limit = firstn (Z.to_nat limit) l.
Proof.
  intros Hlimit. rewrite slice_from_start. unfold slice_bound.
  destruct (Z.ltb_spec limit 0) as [Hneg | _]; [lia |].
  destruct (Z.le_ge_cases limit (Z.of_nat (List.length l))) as [Hle | Hge].
  - rewrite Z.min_l by lia. reflexivity.
  - rewrite Z.min_r by lia. rewrite Nat2Z.id.
    rewrite !firstn_all2; [reflexivity | lia | lia].
Qed.


Lemma In_firstn {A : Type} (x : A) (n : nat) (l : list A) :
  In x (firstn n l) -> In x l.
Proof.
  intros Hin. rewrite <- (firstn_skipn n l). apply in_or_app. auto.
Qed.

Lemma In_skipn {A : Type} (x : A) (n : nat) (l : list A) :
  In x (skipn n l) -> In x l.
Proof.
  intros Hin. rewrite <- (firstn_skipn n l). apply in_or_app. auto.
Qed.

Lemma slice_In {A : Type} (x : A) (l : list A) (start end_ : Z) :
  In x (slice l start end_) -> In x l.
Proof.
  unfold slice. intros Hin. eapply In_skipn, In_firstn, Hin.
Qed.

Lemma slice_all {A : Type} (l : list A) (limit : Z) :
  Z.of_nat (List.length l) <= limit -> slice l 0 limit = l.
Proof.
  intros Hlimit. rewrite slice_nonneg by lia. apply firstn_all2. lia.
Qed.

(* ================================================================= *)
(** ** Facts about sets and counting maps *)

Local Open Scope list_scope.

Lemma Set_has_In (s : list string) (x : string) :
  Set_has s x = true <-> In x s.
Proof.
  unfold Set_has. rewrite existsb_exists. split.
  - intros (y & Hy & Heq). apply String.eqb_eq in Heq. subst. exact Hy.
  - intros Hx. exists x. split; [exact Hx | apply String.eqb_refl].
Qed.

Lemma Set_new_snoc (l : list string) (x : string) :
  Set_new (l ++ [x]) = Set_add (Set_new l) x.
Proof.
  unfold Set_new. rewrite fold_left_app. reflexivity.
Qed.

Lemma Set_add_cases (s : list string) (x : string) :
  (In x s /\ Set_add s x = s) \/ (~ In x s /\ Set_add s x = s ++ [x]).
Proof.
  unfold Set_add. destruct (Set_has s x) eqn:Hhas.
  - left. split; [apply Set_has_In; assumption | reflexivity].
  - right. split; [| reflexivity].
    intros Hin. apply Set_has_In in Hin. congruence.
Qed.

(** A set holds the values of the array it is built from. *)
Lemma Set_new_In (x : string) (l : list string) :
  In x (Set_new l) <-> In x l.
Proof.
  revert x. induction l as [| y l IH] using rev_ind; intros x; [simpl; tauto |].
  rewrite Set_new_snoc, in_app_iff. simpl.
  destruct (Set_add_cases (Set_new l) y) as [[Hin ->] | [Hnotin ->]].
  - rewrite IH. rewrite IH in Hin. intuition (subst; auto).
  - rewrite in_app_iff, IH. simpl. tauto.
Qed.

(** A set holds each value once. *)
Lemma Set_new_NoDup (l : list string) : NoDup (Set_new l).
Proof.
  induction l as [| y l IH] using rev_ind; [constructor |].
  rewrite Set_new_snoc.
  destruct (Set_add_cases (Set_new l) y) as [[Hin ->] | [Hnotin ->]]; [exact IH |].
  apply NoDup_rev in IH. rewrite <- (rev_involutive (_ ++ _)).
  apply NoDup_rev. rewrite rev_app_distr. simpl.
  constructor; [| exact IH]. rewrite <- in_rev. exact Hnotin.
Qed.

(** A set iterates in the order its values were first added. *)
Lemma Set_new_index_of (a b : string) (l : list string) :
  In b l -> (index_of a l < index_of b l)%nat ->
  (index_of a (Set_new l) < index_of b (Set_new l))%nat.
Proof.
  induction l as [| y l IH] using rev_ind; [simpl; tauto |].
  rewrite Set_new_snoc, !index_of_app, in_app_iff.
  pose proof (index_of_le_length b l) as Hble.
  pose proof (index_of_lt_length b l) as Hblt.
  intros Hb Hlt.
  assert (Ha : In a l).
  { destruct (in_dec string_dec a l) as [Ha | Ha]; [exact Ha |].
    destruct (in_dec string_dec b l) as [Hb' | Hb']; [apply Hblt in Hb'; lia |].
    simpl in Hb. destruct Hb as [Hb | [-> | []]]; [contradiction |].
    simpl in Hlt. rewrite String.eqb_refl in Hlt.
    destruct (b =? a)%string; lia. }
  destruct (in_dec string_dec a l) as [_ | Hna]; [| contradiction].
  assert (HaS : In a (Set_new l)) by (apply Set_new_In; exact Ha).
  destruct (in_dec string_dec b l) as [Hb' | Hb'].
  - specialize (IH Hb' Hlt).
    assert (HbS : In b (Set_new l)) by (apply Set_new_In; exact Hb').
    destruct (Set_add_cases (Set_new l) y) as [[_ ->] | [_ ->]]; [exact IH |].
    rewrite !index_of_app.
    destruct (in_dec string_dec a (Set_new l)); [| contradiction].
    destruct (in_dec string_dec b (Set_new l)); [| contradiction].
    exact IH.
  - assert (y = b) by (simpl in Hb; intuition). subst y.
    assert (HbS : ~ In b (Set_new l)) by (rewrite Set_new_In; exact Hb').
    destruct (Set_add_cases (Set_new l) b) as [[Hin _] | [_ ->]]; [contradiction |].
    rewrite !index_of_app.
    destruct (in_dec string_dec a (Set_new l)); [| contradiction].
    destruct (in_dec string_dec b (Set_new l)); [contradiction |].
    apply index_of_lt_length in HaS. lia.
Qed.

Lemma Map_get_keyed (f : string -> Z) (keys : list string) (x : string) :
  Map_get (map (fun k => (k, f k)) keys) x
  = if in_dec string_dec x keys then Some (f x) else None.
Proof.
  induction keys as [| k keys IH]; simpl; [reflexivity |].
  destruct (String.eqb_spec k x) as [-> | Hneq].
  - destruct (string_dec x x); [reflexivity | congruence].
  - rewrite IH. destruct (string_dec k x); [congruence |].
    destruct (in_dec string_dec x keys); reflexivity.
Qed.

Lemma Map_set_keyed_present (f : string -> Z) (keys : list string) (x : string) (v : Z) :
  NoDup keys -> In x keys ->
  Map_set (map (fun k => (k, f k)) keys) x v
  = map (fun k => (k, if string_dec k x then v else f k)) keys.
Proof.
  induction 1 as [| k keys Hk Hnodup IH]; simpl; [tauto |].
  destruct (String.eqb_spec k x) as [-> | Hneq]; intros Hin.
  - destruct (string_dec x x); [| congruence]. f_equal.
    apply map_ext_in. intros k Hkin.
    destruct (string_dec k x); [subst; contradiction | reflexivity].
  - destruct (string_dec k x); [congruence |]. f_equal.
    apply IH. destruct Hin; [congruence | assumption].
Qed.

Lemma Map_set_keyed_absent (f : string -> Z) (keys : list string) (x : string) (v : Z) :
  ~ In x keys ->
  Map_set (map (fun k => (k, f k)) keys) x v
  = map (fun k => (k, f k)) keys ++ [(x, v)].
Proof.
  induction keys as [| k keys IH]; simpl; [reflexivity |].
  intros Hnotin.
  destruct (String.eqb_spec k x) as [-> | Hneq]; [tauto |].
  rewrite IH by tauto. reflexivity.
Qed.

Lemma occurrences_snoc (k x : string) (l : list string) :
  occurrences k (l ++ [x]) = occurrences k l + (if string_dec x k then 1 else 0).
Proof.
  unfold occurrences. rewrite count_occ_app. simpl.
  destruct (string_dec x k); lia.
Qed.

Lemma occurrences_pos (k : string) (l : list string) :
  In k l <-> 0 < occurrences k l.
Proof.
  unfold occurrences. rewrite (count_occ_In string_dec). lia.
Qed.

(** The counting map has one entry for each distinct key, in the order of
    first occurrence, with the number of occurrences of the key. *)
Lemma tally_keyed (l : list string) :
  tally l = map (fun k => (k, occurrences k l)) (Set_new l).
Proof.
  induction l as [| x l IH] using rev_ind; [reflexivity |].
  unfold tally in *. rewrite fold_left_app. simpl. rewrite IH.
  unfold count_up. rewrite Map_get_keyed, Set_new_snoc.
  destruct (Set_add_cases (Set_new l) x) as [[Hin ->] | [Hnotin ->]].
  - destruct (in_dec string_dec x (Set_new l)); [| contradiction]. simpl.
    rewrite Map_set_keyed_present by (auto using Set_new_NoDup).
    apply map_ext. intros k. rewrite occurrences_snoc.
    destruct (string_dec k x) as [-> | Hneq].
    + destruct (string_dec x x); [reflexivity | congruence].
    + destruct (string_dec x k); [congruence |]. f_equal. lia.
  - destruct (in_dec string_dec x (Set_new l)); [contradiction |]. simpl.
    rewrite Map_set_keyed_absent by assumption.
    rewrite map_app. simpl. f_equal.
    + apply map_ext_in. intros k Hk. rewrite occurrences_snoc.
      destruct (string_dec x k); [subst; contradiction |]. f_equal. lia.
    + rewrite occurrences_snoc.
      destruct (string_dec x x); [| congruence].
      rewrite Set_new_In in Hnotin.
      unfold occurrences. rewrite (count_occ_not_In string_dec) in Hnotin.
      rewrite Hnotin. reflexivity.
Qed.

Lemma categoryFrequency_tally (data : list NewsItem) :
  categoryFrequency data = tally (all_categories data).
Proof.
  unfold categoryFrequency, tally, all_categories.
  generalize (@nil (string * Z)).
  induction data as [| newsItem data IH]; intros m; simpl; [reflexivity |].
  rewrite fold_left_app. apply IH.
Qed.

Lemma sourceCount_tally (data : list NewsItem) :
  sourceCount data = tally (all_sources data).
Proof.
  unfold sourceCount, tally, all_sources.
  generalize (@nil (string * Z)).
  induction data as [| newsItem data IH]; intros m; simpl; [reflexivity |].
  apply IH.
Qed.

(* ================================================================= *)
(** ** ReturnNewsWithATopic *)

Lemma existsb_topic (category : string) (newsItem : NewsItem) :
  existsb (fun cat => (toLowerCase cat =? toLowerCase category)%string)
          (categories (item newsItem)) = true
  <-> has_topic category newsItem.
Proof.
  unfold has_topic. rewrite existsb_exists.
  split; intros (cat & Hin & Heq); exists cat; split; auto;
    apply String.eqb_eq; assumption.
Qed.

(** C6: [ReturnNewsWithATopic(category)] returns the fetched items, in
    their order, that have a category equal to [category] once both are
    lowercased, and no others; two arguments with the same lowercase form,
    such as [Sports] and [sports], give the same result. *)
Theorem ReturnNewsWithATopic_exact_match
    (fetch : string -> FetchOutcome) (rt : Runtime) (data : list NewsItem)
    (category : string) :
  fetches fetch (receiver rt) data ->
  (exists (keep : NewsItem -> bool) (result : list NewsItem),
      fst (ReturnNewsWithATopic fetch category rt) = Returned result
      /\ result = filter keep data
      /\ (forall newsItem, keep newsItem = true <-> has_topic category newsItem)
      /\ (forall newsItem,
             In newsItem result <-> In newsItem data /\ has_topic category newsItem))
  /\ (forall category', toLowerCase category' = toLowerCase category ->
        fst (ReturnNewsWithATopic fetch category' rt)
        = fst (ReturnNewsWithATopic fetch category rt))
  /\ fst (ReturnNewsWithATopic fetch "Sports" rt)
     = fst (ReturnNewsWithATopic fetch "sports" rt).
Proof.
  intros Hfetch. apply snapshot_fetches in Hfetch.
  split; [| split].
  - run_query (ReturnNewsWithATopic_run fetch category rt). rewrite Hfetch.
    eexists. eexists. split; [reflexivity |]. split; [reflexivity |].
    split.
    + intros newsItem. apply existsb_topic.
    + intros newsItem. rewrite filter_In, existsb_topic. tauto.
  - intros category' Hsame.
    run_query (ReturnNewsWithATopic_run fetch category' rt).
    run_query (ReturnNewsWithATopic_run fetch category rt).
    rewrite Hsame. reflexivity.
  - run_query (ReturnNewsWithATopic_run fetch "Sports" rt).
    run_query (ReturnNewsWithATopic_run fetch "sports" rt).
    reflexivity.
Qed.

(* ================================================================= *)
(** ** Ranking by count: ReturnAllTopics and ReturnTopSourcesByArticleCount *)

Lemma by_count_desc_rank (x y : string * Z) :
  (SortCompare by_count_desc x y <=? 0) = (- snd x <=? - snd y).
Proof.
  unfold SortCompare, by_count_desc.
  apply Bool.eq_true_iff_eq. rewrite !Z.leb_le. lia.
Qed.

Lemma tally_keys (l : list string) : map fst (tally l) = Set_new l.
Proof.
  rewrite tally_keyed, map_map. simpl. apply map_id.
Qed.

Lemma tally_entry (k : string) (l : list string) :
  In k l -> In (k, occurrences k l) (tally l).
Proof.
  intros Hin. rewrite tally_keyed.
  apply (in_map (fun k => (k, occurrences k l))), Set_new_In, Hin.
Qed.

Lemma tally_entry_count (entry : string * Z) (l : list string) :
  In entry (tally l) -> snd entry = occurrences (fst entry) l /\ In (fst entry) l.
Proof.
  rewrite tally_keyed, in_map_iff. intros (k & <- & Hk).
  apply (proj1 (Set_new_In _ _)) in Hk. simpl. split; [reflexivity | exact Hk].
Qed.

Lemma ranked_keys_perm (l : list string) :
  Permutation (map fst (sort (tally l) by_count_desc)) (Set_new l).
Proof.
  rewrite <- tally_keys. apply Permutation_map, sort_perm.
Qed.

(** A key counted more often comes first. *)
Lemma ranked_keys_strict (a b : string) (l : list string) :
  In a l -> In b l -> occurrences b l < occurrences a l ->
  (index_of a (map fst (sort (tally l) by_count_desc))
   < index_of b (map fst (sort (tally l) by_count_desc)))%nat.
Proof.
  intros Ha Hb Hlt.
  apply precedes_index_of.
  - eapply Permutation_NoDup; [symmetry; apply ranked_keys_perm | apply Set_new_NoDup].
  - apply (precedes_map fst (a, occurrences a l) (b, occurrences b l)).
    apply (sort_precedes_strict by_count_desc (fun entry => - snd entry)
                                by_count_desc_rank);
      [apply tally_entry, Ha | apply tally_entry, Hb | simpl; lia].
Qed.

(** Of two keys counted equally often, the one met first comes first. *)
Lemma ranked_keys_tie (a b : string) (l : list string) :
  In b l -> occurrences a l = occurrences b l ->
  (index_of a l < index_of b l)%nat ->
  (index_of a (map fst (sort (tally l) by_count_desc))
   < index_of b (map fst (sort (tally l) by_count_desc)))%nat.
Proof.
  intros Hb Heq Hlt.
  apply precedes_index_of.
  - eapply Permutation_NoDup; [symmetry; apply ranked_keys_perm | apply Set_new_NoDup].
  - apply (precedes_map fst (a, occurrences a l) (b, occurrences b l)).
    apply (sort_precedes_tie by_count_desc (fun entry => - snd entry)
                             by_count_desc_rank); [| simpl; lia].
    rewrite tally_keyed.
    apply (precedes_map (fun k => (k, occurrences k l))).
    apply index_of_precedes; [apply Set_new_In, Hb |].
    apply Set_new_index_of; assumption.
Qed.

(** C5: [ReturnAllTopics] returns each category of the fetched items once;
    a category that occurs more often than another comes before it, and of
    two categories that occur equally often the one met first, going through
    the items in order and through the categories of each, comes first. *)
Theorem ReturnAllTopics_order
    (fetch : string -> FetchOutcome) (rt : Runtime) (data : list NewsItem) :
  fetches fetch (receiver rt) data ->
  exists topics,
    fst (ReturnAllTopics fetch rt) = Returned topics
    /\ NoDup topics
    /\ (forall c, In c topics <-> In c (all_categories data))
    /\ (forall a b,
           In a (all_categories data) -> In b (all_categories data) ->
           occurrences b (all_categories data) < occurrences a (all_categories data) ->
           (index_of a topics < index_of b topics)%nat)
    /\ (forall a b,
           In a (all_categories data) -> In b (all_categories data) ->
           occurrences a (all_categories data) = occurrences b (all_categories data) ->
           (index_of a (all_categories data) < index_of b (all_categories data))%nat ->
           (index_of a topics < index_of b topics)%nat).
Proof.
  intros Hfetch. apply snapshot_fetches in Hfetch.
  run_query (ReturnAllTopics_run fetch rt). rewrite Hfetch, categoryFrequency_tally.
  eexists. split; [reflexivity |].
  split; [| split; [| split]].
  - eapply Permutation_NoDup; [symmetry; apply ranked_keys_perm | apply Set_new_NoDup].
  - intros c. rewrite <- (Set_new_In c (all_categories data)).
    split; apply Permutation_in; [| symmetry]; apply ranked_keys_perm.
  - intros a b. apply ranked_keys_strict.
  - intros a b _. apply ranked_keys_tie.
Qed.

(** C9: sources are told apart by exact text: [ReturnAllSources] returns each
    source text of the fetched items once, so two sources that differ, be it
    only in letter case, are two entries; [ReturnTopSourcesByArticleCount]
    gives each source text the number of items with exactly that text, and
    with a limit that cuts nothing off both sources are there; whereas
    [ReturnNewsFromSource] answers the same for two texts with the same
    lowercase form. *)
Theorem sources_case_sensitive
    (fetch : string -> FetchOutcome) (rt : Runtime) (data : list NewsItem)
    (s1 s2 : string) :
  fetches fetch (receiver rt) data ->
  In s1 (all_sources data) -> In s2 (all_sources data) -> s1 <> s2 ->
  exists sources,
    fst (ReturnAllSources fetch rt) = Returned sources
    /\ NoDup sources
    /\ (forall s, In s sources <-> In s (all_sources data))
    /\ In s1 sources /\ In s2 sources
    /\ (forall limit, exists top,
           fst (ReturnTopSourcesByArticleCount fetch (Some limit) rt) = Returned top
           /\ (forall e, In e top ->
                  In (sc_source e) (all_sources data)
                  /\ sc_count e = occurrences (sc_source e) (all_sources data))
           /\ (Z.of_nat (List.length sources) <= limit ->
               In {| sc_source := s1; sc_count := occurrences s1 (all_sources data) |} top
               /\ In {| sc_source := s2; sc_count := occurrences s2 (all_sources data) |} top))
    /\ (toLowerCase s1 = toLowerCase s2 ->
        fst (ReturnNewsFromSource fetch s1 rt) = fst (ReturnNewsFromSource fetch s2 rt)).
Proof.
  intros Hfetch Hs1 Hs2 Hneq. apply snapshot_fetches in Hfetch.
  run_query (ReturnAllSources_run fetch rt). rewrite Hfetch.
  fold (all_sources data).
  eexists. split; [reflexivity |].
  split; [apply Set_new_NoDup |].
  split; [intros s; apply Set_new_In |].
  split; [apply Set_new_In, Hs1 |].
  split; [apply Set_new_In, Hs2 |].
  split.
  - intros limit.
    run_query (ReturnTopSourcesByArticleCount_run fetch (Some limit) rt).
    rewrite Hfetch, sourceCount_tally.
    eexists. split; [reflexivity |]. split.
    + intros e He. apply in_map_iff in He as (entry & <- & Hentry). simpl.
      apply slice_In, sort_In, tally_entry_count in Hentry. tauto.
    + intros Hlimit. rewrite slice_all.
      * split.
        -- apply (in_map (fun entry => {| sc_source := fst entry; sc_count := snd entry |})
                         _ (s1, occurrences s1 (all_sources data))).
           apply sort_In, tally_entry, Hs1.
        -- apply (in_map (fun entry => {| sc_source := fst entry; sc_count := snd entry |})
                         _ (s2, occurrences s2 (all_sources data))).
           apply sort_In, tally_entry, Hs2.
      * rewrite (Permutation_length (sort_perm by_count_desc _)).
        rewrite tally_keyed, length_map. exact Hlimit.
  - intros Hlower.
    run_query (ReturnNewsFromSource_run fetch s1 rt).
    run_query (ReturnNewsFromSource_run fetch s2 rt).
    rewrite Hlower. reflexivity.
Qed.

(* ================================================================= *)
(** ** ReturnLatestNews *)

Section LatestNews.

Variable Date_getTime : string -> option Z.

(** The rank [ReturnLatestNews] sorts by: the time of [published], negated,
    so that a later item has a lower rank. *)
Let rank (newsItem : NewsItem) : Z :=
  - or_zero (Date_getTime (published (item newsItem))).

Let by_rank (a b : NewsItem) : option Z := Some (rank a - rank b).

Lemma by_rank_rank (x y : NewsItem) :
  (SortCompare by_rank x y <=? 0) = (rank x <=? rank y).
Proof.
  unfold SortCompare, by_rank.
  apply Bool.eq_true_iff_eq. rewrite !Z.leb_le. lia.
Qed.

(** On items whose [published] are dates, the comparator compares ranks. *)
Lemma sort_by_published_desc (data : list NewsItem) :
  Forall (valid_date Date_getTime) data ->
  sort data (by_published_desc Date_getTime) = sort data by_rank.
Proof.
  intros Hvalid. rewrite Forall_forall in Hvalid.
  apply sort_ext. intros x y Hx Hy.
  apply Hvalid in Hx, Hy. unfold valid_date in Hx, Hy.
  unfold SortCompare, by_published_desc, by_rank, rank, Number_sub.
  destruct (Date_getTime (published (item x))); [| congruence].
  destruct (Date_getTime (published (item y))); [| congruence].
  simpl. lia.
Qed.




End LatestNews.



(* ================================================================= *)
(** ** The theorems at the sample values *)

Lemma serving_fetches (data : list NewsItem) :
  fetches (serving data) sample_receiver data.
Proof.
  eexists. split; [reflexivity |]. simpl. split; [lia | reflexivity].
Defined.


Lemma queries_swallow_fetch_failure_witness :
  fst (ReturnAllSources failing sample_runtime) = Returned []
  /\ fst (ReturnLatestNews failing sample_clock (Some 2) sample_runtime) = Returned [].
Proof.
  assert (Hfails : fetch_fails (failing (createUrl (receiver sample_runtime))))
    by (simpl; left; lia).
  pose proof (queries_swallow_fetch_failure failing sample_clock sample_runtime Hfails)
    as Hall.
  split; [apply Hall |].
  apply (proj1 (proj2 (proj2 (proj2 (proj2 (proj2 (proj2 Hall))))))).
Defined.

Lemma ReturnAllTopics_order_witness :
  exists topics,
    fst (ReturnAllTopics (serving sample_data) sample_runtime) = Returned topics
    /\ NoDup topics
    /\ (index_of "Tech" topics < index_of "World" topics)%nat
    /\ (index_of "World" topics < index_of "Sports" topics)%nat.
Proof.
  destruct (ReturnAllTopics_order (serving sample_data) sample_runtime sample_data
              (serving_fetches sample_data))
    as (topics & Hrun & Hnodup & _ & Hstrict & Htie).
  exists topics. split; [exact Hrun |]. split; [exact Hnodup |]. split.
  - apply Hstrict; vm_compute; auto 10.
  - apply Htie; vm_compute; auto 10.
Defined.

Lemma ReturnNewsWithATopic_exact_match_witness :
  fst (ReturnNewsWithATopic (serving sample_data) "Sports" sample_runtime)
  = fst (ReturnNewsWithATopic (serving sample_data) "sports" sample_runtime)
  /\ exists result,
       fst (ReturnNewsWithATopic (serving sample_data) "sport" sample_runtime)
       = Returned result
       /\ ~ In item_T3 result.
Proof.
  split.
  - exact (proj2 (proj2 (ReturnNewsWithATopic_exact_match (serving sample_data)
                           sample_runtime sample_data "sports"
                           (serving_fetches sample_data)))).
  - destruct (proj1 (ReturnNewsWithATopic_exact_match (serving sample_data)
                       sample_runtime sample_data "sport"
                       (serving_fetches sample_data)))
      as (keep & result & Hrun & _ & _ & Hin).
    exists result. split; [exact Hrun |].
    intros Hresult. apply Hin in Hresult as (_ & cat & Hcat & Hlower).
    simpl in Hcat.
    destruct Hcat as [<- | [<- | [<- | []]]]; discriminate.
Defined.


Lemma sources_case_sensitive_witness :
  exists sources,
    fst (ReturnAllSources (serving sample_data) sample_runtime) = Returned sources
    /\ In "BBC" sources /\ In "bbc" sources
    /\ toLowerCase "BBC" = toLowerCase "bbc".
Proof.
  destruct (sources_case_sensitive (serving sample_data) sample_runtime sample_data
              "BBC" "bbc" (serving_fetches sample_data))
    as (sources & Hrun & _ & _ & H1 & H2 & _).
  - simpl. auto.
  - simpl. auto.
  - discriminate.
  - exists sources. repeat split; assumption || reflexivity.
Defined.

(* ================================================================= *)
(** ** More about createUrl and setDate *)

Local Open Scope string_scope.

Lemma append_assoc (a b c : string) : (a ++ b) ++ c = a ++ b ++ c.
Proof.
  induction a as [| ch a IH]; simpl; [reflexivity | rewrite IH; reflexivity].
Qed.

Lemma length_append (a b : string) :
  String.length (a ++ b) = (String.length a + String.length b)%nat.
Proof.
  induction a as [| ch a IH]; simpl; [reflexivity | rewrite IH; reflexivity].
Qed.

(** Two texts that end in parts of the same length are equal only if the
    parts, and what comes before them, are equal. *)
Lemma append_inj_tail (a b t u : string) :
  String.length t = String.length u -> a ++ t = b ++ u -> a = b /\ t = u.
Proof.
  intros Hlen. revert b. induction a as [| ch a IH]; intros [| ch' b]; simpl; intros Heq.
  - auto.
  - exfalso. rewrite Heq in Hlen. simpl in Hlen. rewrite length_append in Hlen. lia.
  - exfalso. rewrite <- Heq in Hlen. simpl in Hlen. rewrite length_append in Hlen. lia.
  - injection Heq as -> Heq. apply IH in Heq as [-> ->]. auto.
Qed.

(** A rendering that a check finds to be one-to-one on [lo .. lo + n - 1] is
    one-to-one there. *)
Lemma injective_on_range (f : Z -> string) (lo : Z) (n : nat) :
  forallb (fun i => forallb (fun j => implb (f (lo + Z.of_nat i) =? f (lo + Z.of_nat j))%string
                                            (Nat.eqb i j))
                            (seq 0 n))
          (seq 0 n) = true ->
  forall a b, lo <= a < lo + Z.of_nat n -> lo <= b < lo + Z.of_nat n ->
              f a = f b -> a = b.
Proof.
  intros Hcheck a b Ha Hb Heq.
  rewrite forallb_forall in Hcheck.
  assert (Hrow := Hcheck (Z.to_nat (a - lo))). clear Hcheck.
  rewrite forallb_forall in Hrow.
  assert (Hcell : implb (f (lo + Z.of_nat (Z.to_nat (a - lo)))
                         =? f (lo + Z.of_nat (Z.to_nat (b - lo))))%string
                        (Nat.eqb (Z.to_nat (a - lo)) (Z.to_nat (b - lo))) = true)
    by (apply Hrow; apply in_seq; lia).
  replace (lo + Z.of_nat (Z.to_nat (a - lo))) with a in Hcell by lia.
  replace (lo + Z.of_nat (Z.to_nat (b - lo))) with b in Hcell by lia.
  rewrite Heq, String.eqb_refl in Hcell. simpl in Hcell.
  apply Nat.eqb_eq in Hcell. lia.
Qed.

Lemma two_digits_inj (a b : Z) :
  0 <= a <= 99 -> 0 <= b <= 99 -> two_digits a = two_digits b -> a = b.
Proof.
  intros Ha Hb. apply (injective_on_range two_digits 0 100); [| lia | lia].
  vm_compute. reflexivity.
Qed.

Lemma year_text_inj (a b : Z) :
  2000 <= a <= 2100 -> 2000 <= b <= 2100 ->
  Number_toString a = Number_toString b -> a = b.
Proof.
  intros Ha Hb. apply (injective_on_range Number_toString 2000 101); [| lia | lia].
  vm_compute. reflexivity.
Qed.

Lemma year_text_length (y : Z) :
  2000 <= y <= 2100 -> String.length (Number_toString y) = 4%nat.
Proof.
  intros Hy.
  assert (Hall : forallb (fun k => Nat.eqb (String.length (Number_toString (2000 + Z.of_nat k))) 4)
                         (seq 0 101) = true) by (vm_compute; reflexivity).
  rewrite forallb_forall in Hall.
  specialize (Hall (Z.to_nat (y - 2000))).
  replace (2000 + Z.of_nat (Z.to_nat (y - 2000))) with y in Hall by lia.
  apply Nat.eqb_eq, Hall, in_seq. lia.
Qed.

(** The URL of a state within the setter's ranges, cut before the day: what
    names the month directory, and the file name of fifteen characters. *)
Lemma createUrl_in_ranges (this : NewsFetcher) :
  in_setter_ranges this ->
  exists monthName,
    Array_get monthNames (month this - 1) = Some monthName
    /\ createUrl this
       = (baseUrl this ++ "/" ++ monthName ++ "-" ++ Number_toString (year this) ++ "/")
           ++ (two_digits (date this) ++ "-" ++ two_digits (month this) ++ "-"
                 ++ Number_toString (year this) ++ ".json").
Proof.
  unfold in_setter_ranges, date_in_range, month_in_range, year_in_range.
  intros (Hd & Hm & Hy).
  destruct (Array_get_monthNames_in_range (month this) Hm) as (monthName & Hget & _ & Hin).
  exists monthName. split; [exact Hget |].
  unfold createUrl. rewrite Hget. cbv zeta.
  rewrite !padStart_two_digits by lia. simpl template_of.
  rewrite !append_assoc. reflexivity.
Qed.

(** X1: within the ranges the setter accepts, different states have
    different URLs: a URL determines the base URL, the date, the month and
    the year it was made from. *)
Theorem createUrl_injective (this other : NewsFetcher) :
  in_setter_ranges this -> in_setter_ranges other ->
  createUrl this = createUrl other -> this = other.
Proof.
  intros Hthis Hother Heq.
  destruct (createUrl_in_ranges this Hthis) as (name1 & Hname1 & Hurl1).
  destruct (createUrl_in_ranges other Hother) as (name2 & Hname2 & Hurl2).
  destruct Hthis as (Hd1 & Hm1 & Hy1). destruct Hother as (Hd2 & Hm2 & Hy2).
  unfold date_in_range, month_in_range, year_in_range in *.
  rewrite Hurl1, Hurl2 in Heq.
  apply append_inj_tail in Heq as [Hhead Htail].
  2: { unfold two_digits. simpl. rewrite !length_append, !year_text_length by lia.
       reflexivity. }
  assert (Hdate : two_digits (date this) = two_digits (date other))
    by (unfold two_digits in *; simpl in Htail; congruence).
  assert (Hmonth : two_digits (month this) = two_digits (month other))
    by (unfold two_digits in *; simpl in Htail; congruence).
  assert (Hyear : Number_toString (year this) ++ ".json"
                  = Number_toString (year other) ++ ".json")
    by (unfold two_digits in *; simpl in Htail; congruence).
  apply two_digits_inj in Hdate; [| lia | lia].
  apply two_digits_inj in Hmonth; [| lia | lia].
  apply append_inj_tail in Hyear as [Hyear _]; [| reflexivity].
  apply year_text_inj in Hyear; [| lia | lia].
  rewrite Hmonth, Hname2 in Hname1. injection Hname1 as <-.
  rewrite Hyear in Hhead.
  apply append_inj_tail in Hhead as [Hbase _]; [| reflexivity].
  destruct this, other. simpl in *. congruence.
Qed.

Lemma createUrl_injective_witness :
  constructor "https://api.news.com" 12 11 2024
  = constructor "https://api.news.com" 12 11 2024.
Proof.
  apply createUrl_injective;
    try (unfold in_setter_ranges, date_in_range, month_in_range, year_in_range;
         simpl; lia).
  reflexivity.
Defined.

Lemma url_as_specified_in_ranges (this : NewsFetcher) :
  in_setter_ranges this -> url_as_specified this (createUrl this).
Proof.
  unfold in_setter_ranges, date_in_range, month_in_range, year_in_range.
  intros (Hd & Hm & Hy).
  destruct (Array_get_monthNames_in_range (month this) Hm) as (monthName & Hget & Hnth & _).
  exists monthName, (two_digits (date this)), (two_digits (month this)).
  repeat split; try lia; try assumption.
  unfold createUrl. rewrite Hget. cbv zeta.
  rewrite !padStart_two_digits by lia. reflexivity.
Qed.

(* ================================================================= *)
(** ** More about fetching *)

Local Open Scope list_scope.


(** X3: [fetchNewsData] by outcome of the fetch.  A response with a status
    from 200 to 299 and a body that decodes gives the decoded array and
    leaves the state as it was, the console included.  Otherwise it gives
    the empty array and writes one line to the console: the error of the
    network, the error
    [HTTP error! status: N] for a status [N] outside 200..299 (the body is
    then not looked at), or the error of the decoding. *)
Theorem fetchNewsData_outcomes (fetch : string -> FetchOutcome) (rt : Runtime) :
  (forall data,
      fetches fetch (receiver rt) data ->
      fetchNewsData fetch rt = (Returned data, rt))
  /\ (forall e,
         fetch (createUrl (receiver rt)) = Rejected e ->
         fetchNewsData fetch rt
         = (Returned [],
            {| receiver := receiver rt;
               console := console rt ++ [("Error fetching news data:"%string, e)] |}))
  /\ (forall response,
         fetch (createUrl (receiver rt)) = Resolved response ->
         ~ (200 <= status response <= 299) ->
         fetchNewsData fetch rt
         = (Returned [],
            {| receiver := receiver rt;
               console := console rt
                            ++ [("Error fetching news data:"%string,
                                 Error ("HTTP error! status: "
                                          ++ Number_toString (status response))%string)] |}))
  /\ (forall response e,
         fetch (createUrl (receiver rt)) = Resolved response ->
         200 <= status response <= 299 ->
         body response = Malformed e ->
         fetchNewsData fetch rt
         = (Returned [],
            {| receiver := receiver rt;
               console := console rt ++ [("Error fetching news data:"%string, e)] |})).
Proof.
  unfold fetchNewsData, try_catch, bind, get_this, await_fetch, await_json,
    console_error, ret, throw.
  destruct rt as [this out]. simpl.
  split; [| split; [| split]].
  - intros data (response & -> & Hstatus & Hbody).
    apply ok_iff in Hstatus. simpl. rewrite Hstatus, Hbody. reflexivity.
  - intros e ->. reflexivity.
  - intros response -> Hstatus.
    destruct (ok response) eqn:Hok; [apply ok_iff in Hok; contradiction |].
    reflexivity.
  - intros response e -> Hstatus Hbody.
    apply ok_iff in Hstatus. simpl. rewrite Hstatus, Hbody. reflexivity.
Qed.

Lemma fetchNewsData_outcomes_witness :
  fetchNewsData failing sample_runtime
  = (Returned [],
     {| receiver := sample_receiver;
        console := [("Error fetching news data:"%string,
                     Error "HTTP error! status: 500")] |}).
Proof.
  apply (proj1 (proj2 (proj2 (fetchNewsData_outcomes failing sample_runtime)))
           {| status := 500; body := Parsed [] |}).
  - reflexivity.
  - simpl. lia.
Defined.




(** X5: after a [setDate] that returned, a fetch goes to the URL of the new
    date: [fetchNewsData], and with it a query such as [ReturnAllSources]
    called after [setDate], answers from what the network serves there. *)
Theorem setDate_then_fetch
    (fetch : string -> FetchOutcome) (d m y : Z) (rt rt' : Runtime) :
  setDate d m y rt = (Returned tt, rt') ->
  fst (fetchNewsData fetch rt')
  = Returned (snapshot (fetch (createUrl (constructor (baseUrl (receiver rt)) d m y))))
  /\ fst ((setDate d m y ;;; ReturnAllSources fetch) rt)
     = Returned (Set_new (all_sources
                            (snapshot (fetch (createUrl
                                                (constructor (baseUrl (receiver rt)) d m y)))))).
Proof.
  intros Hrun.
  assert (Hurl : createUrl (receiver rt')
                 = createUrl (constructor (baseUrl (receiver rt)) d m y)).
  { apply setDate_returned_in_range in Hrun as (_ & _ & _ & ->). reflexivity. }
  split.
  - destruct (fetchNewsData_run fetch rt') as [log ->]. simpl. rewrite Hurl. reflexivity.
  - unfold bind. rewrite Hrun.
    run_query (ReturnAllSources_run fetch rt'). rewrite Hurl. reflexivity.
Qed.

Lemma setDate_then_fetch_witness :
  fst ((setDate 12 11 2024 ;;; ReturnAllSources (serving sample_data))
         {| receiver := constructor "https://api.news.com" 1 1 2000; console := [] |})
  = Returned ["BBC"%string; "bbc"%string].
Proof.
  etransitivity; [| reflexivity].
  exact (proj2 (setDate_then_fetch (serving sample_data) 12 11 2024
                  {| receiver := constructor "https://api.news.com" 1 1 2000; console := [] |}
                  (snd (setDate 12 11 2024
                          {| receiver := constructor "https://api.news.com" 1 1 2000;
                             console := [] |}))
                  eq_refl)).
Defined.

(* ================================================================= *)
(** ** The filtering queries *)

Lemma prefix_iff (t s : string) :
  prefix t s = true <-> exists after, s = (t ++ after)%string.
Proof.
  revert s. induction t as [| a t IH]; intros [| b s]; simpl.
  - split; [intros _; exists ""%string; reflexivity | reflexivity].
  - split; [intros _; exists (String b s); reflexivity | reflexivity].
  - split; [discriminate | intros [after Heq]; discriminate].
  - destruct (ascii_dec a b) as [-> | Hneq].
    + rewrite IH. split; intros [after Heq]; exists after; congruence.
    + split; [discriminate | intros [after Heq]; congruence].
Qed.

(** [includes] is the test for a substring. *)
Lemma includes_iff (s t : string) :
  includes s t = true <-> is_substring t s.
Proof.
  unfold is_substring. induction s as [| c s IH].
  - change (includes "" t) with (prefix t "" || false).
    rewrite orb_false_r, prefix_iff. split.
    + intros [after Heq]. exists ""%string, after. exact Heq.
    + intros ([| c before] & after & Heq); [exists after; exact Heq | discriminate].
  - change (includes (String c s) t) with (prefix t (String c s) || includes s t).
    rewrite orb_true_iff, prefix_iff, IH. split.
    + intros [[after Heq] | (before & after & Heq)].
      * exists ""%string, after. exact Heq.
      * exists (String c before), after. simpl. rewrite Heq. reflexivity.
    + intros ([| c' before] & after & Heq).
      * left. exists after. exact Heq.
      * right. exists before, after. simpl in Heq. congruence.
Qed.

Lemma includes_empty (s : string) : includes s "" = true.
Proof.
  destruct s; reflexivity.
Qed.

Lemma filter_all {A : Type} (p : A -> bool) (l : list A) :
  (forall x, In x l -> p x = true) -> filter p l = l.
Proof.
  induction l as [| x l IH]; simpl; intros Hall; [reflexivity |].
  rewrite Hall by auto. rewrite IH by auto. reflexivity.
Qed.

(** X6: [SearchNewsByKeyword(keyword)] returns, in their order, the fetched
    items whose title or description, lowercased, has the lowercased keyword
    as a substring; the empty keyword returns every fetched item, and
    keywords with the same lowercase form return the same. *)
Theorem SearchNewsByKeyword_substring
    (fetch : string -> FetchOutcome) (rt : Runtime) (data : list NewsItem)
    (keyword : string) :
  fetches fetch (receiver rt) data ->
  exists (keep : NewsItem -> bool) (result : list NewsItem),
    fst (SearchNewsByKeyword fetch keyword rt) = Returned result
    /\ result = filter keep data
    /\ (forall newsItem,
           In newsItem result
           <-> In newsItem data
               /\ (is_substring (toLowerCase keyword) (toLowerCase (title (item newsItem)))
                   \/ is_substring (toLowerCase keyword)
                                   (toLowerCase (description (item newsItem)))))
    /\ (keyword = ""%string -> result = data)
    /\ (forall keyword', toLowerCase keyword' = toLowerCase keyword ->
          fst (SearchNewsByKeyword fetch keyword' rt) = Returned result).
Proof.
  intros Hfetch. apply snapshot_fetches in Hfetch.
  run_query (SearchNewsByKeyword_run fetch keyword rt). rewrite Hfetch.
  eexists. eexists. split; [reflexivity |]. split; [reflexivity |].
  split; [| split].
  - intros newsItem. rewrite filter_In, orb_true_iff, !includes_iff. tauto.
  - intros ->. apply filter_all. intros newsItem _. simpl.
    rewrite includes_empty. reflexivity.
  - intros keyword' Hlower.
    run_query (SearchNewsByKeyword_run fetch keyword' rt).
    rewrite Hfetch, Hlower. reflexivity.
Qed.

Lemma SearchNewsByKeyword_substring_witness :
  exists result,
    fst (SearchNewsByKeyword (serving sample_data) "" sample_runtime) = Returned result
    /\ result = sample_data.
Proof.
  destruct (SearchNewsByKeyword_substring (serving sample_data) sample_runtime sample_data ""
              (serving_fetches sample_data))
    as (keep & result & Hrun & _ & _ & Hempty & _).
  exists result. split; [exact Hrun | apply Hempty; reflexivity].
Defined.

(** X7: [ReturnNewsByAuthor(authorName)] returns, in their order, the
    fetched items with an author whose lowercased name has the lowercased
    [authorName] as a substring; an item without authors is never returned,
    so the empty name returns exactly the items that have an author. *)
Theorem ReturnNewsByAuthor_substring
    (fetch : string -> FetchOutcome) (rt : Runtime) (data : list NewsItem)
    (authorName : string) :
  fetches fetch (receiver rt) data ->
  exists (keep : NewsItem -> bool) (result : list NewsItem),
    fst (ReturnNewsByAuthor fetch authorName rt) = Returned result
    /\ result = filter keep data
    /\ (forall newsItem,
           In newsItem result
           <-> In newsItem data
               /\ exists author,
                    In author (authors (item newsItem))
                    /\ is_substring (toLowerCase authorName) (toLowerCase (name author)))
    /\ (forall newsItem, authors (item newsItem) = [] -> ~ In newsItem result)
    /\ (authorName = ""%string ->
        forall newsItem,
          In newsItem result <-> In newsItem data /\ authors (item newsItem) <> []).
Proof.
  intros Hfetch. apply snapshot_fetches in Hfetch.
  run_query (ReturnNewsByAuthor_run fetch authorName rt). rewrite Hfetch.
  eexists. eexists. split; [reflexivity |]. split; [reflexivity |].
  split; [| split].
  - intros newsItem. rewrite filter_In, existsb_exists.
    split; intros (Hin & author & Hauthor & Hname); (split; [exact Hin |]);
      exists author; (split; [exact Hauthor |]); apply includes_iff; exact Hname.
  - intros newsItem Hnone Hin. apply filter_In in Hin as [_ Hin].
    rewrite Hnone in Hin. discriminate.
  - intros -> newsItem. rewrite filter_In.
    destruct (authors (item newsItem)) as [| author rest]; simpl.
    + intuition discriminate.
    + rewrite includes_empty. simpl. intuition discriminate.
Qed.

Lemma ReturnNewsByAuthor_substring_witness :
  exists result,
    fst (ReturnNewsByAuthor (serving sample_data) "AD" sample_runtime) = Returned result
    /\ In item_T1 result.
Proof.
  destruct (ReturnNewsByAuthor_substring (serving sample_data) sample_runtime sample_data "AD"
              (serving_fetches sample_data))
    as (keep & result & Hrun & _ & Hin & _).
  exists result. split; [exact Hrun |].
  apply Hin. split; [simpl; auto |].
  exists {| name := "Ada" |}. split; [simpl; auto |].
  exists ""%string, "a"%string. reflexivity.
Defined.

Lemma filter_none {A : Type} (p : A -> bool) (l : list A) :
  (forall x, In x l -> p x = false) -> filter p l = [].
Proof.
  induction l as [| x l IH]; simpl; intros Hall; [reflexivity |].
  rewrite Hall by auto. apply IH. auto.
Qed.

(** X8: [ReturnNewsInDateRange(startDate, endDate)] returns, in their
    order, the fetched items whose [published] is a date from [startDate] to
    [endDate], both ends included; it returns nothing when either bound is
    an invalid date or when the end is before the start, and an item whose
    [published] is not a date is never returned. *)
Theorem ReturnNewsInDateRange_inclusive
    (fetch : string -> FetchOutcome) (Date_getTime : string -> option Z)
    (rt : Runtime) (data : list NewsItem) (startDate endDate : Date) :
  fetches fetch (receiver rt) data ->
  exists (keep : NewsItem -> bool) (result : list NewsItem),
    fst (ReturnNewsInDateRange fetch Date_getTime startDate endDate rt) = Returned result
    /\ result = filter keep data
    /\ (forall startTime endTime,
           startDate = Some startTime -> endDate = Some endTime ->
           forall newsItem,
             In newsItem result
             <-> In newsItem data
                 /\ published_within Date_getTime startTime endTime newsItem)
    /\ (startDate = None \/ endDate = None -> result = [])
    /\ (forall startTime endTime,
           startDate = Some startTime -> endDate = Some endTime ->
           endTime < startTime -> result = [])
    /\ (forall newsItem,
           Date_getTime (published (item newsItem)) = None -> ~ In newsItem result).
Proof.
  intros Hfetch. apply snapshot_fetches in Hfetch.
  run_query (ReturnNewsInDateRange_run fetch Date_getTime startDate endDate rt).
  rewrite Hfetch.
  eexists. eexists. split; [reflexivity |]. split; [reflexivity |].
  split; [| split; [| split]].
  - intros startTime endTime -> -> newsItem.
    rewrite filter_In. unfold published_within, Date_ge, Date_le.
    destruct (Date_getTime (published (item newsItem))) as [t |].
    + rewrite andb_true_iff, Z.geb_le, Z.leb_le. split.
      * intros (Hin & Hge & Hle). split; [exact Hin |]. exists t. split; [reflexivity | lia].
      * intros (Hin & t' & Ht' & Hrange). injection Ht' as <-.
        split; [exact Hin | lia].
    + split; [intros [_ Hfalse]; discriminate |].
      intros (_ & t & Ht & _). discriminate.
  - intros Hinvalid. apply filter_none. intros newsItem _.
    unfold Date_ge, Date_le.
    destruct (Date_getTime (published (item newsItem))) as [t |]; [| reflexivity].
    destruct Hinvalid as [-> | ->]; [reflexivity |].
    apply andb_false_r.
  - intros startTime endTime -> -> Hlt. apply filter_none. intros newsItem _.
    unfold Date_ge, Date_le.
    destruct (Date_getTime (published (item newsItem))) as [t |]; [| reflexivity].
    apply andb_false_iff. rewrite Z.geb_leb, !Z.leb_gt. lia.
  - intros newsItem Hnone Hin. apply filter_In in Hin as [_ Hin].
    unfold Date_ge in Hin. rewrite Hnone in Hin. discriminate.
Qed.

Lemma ReturnNewsInDateRange_inclusive_witness :
  exists result,
    fst (ReturnNewsInDateRange (serving sample_data) sample_clock
           (Some 1731225600000) (Some 1731312000000) sample_runtime) = Returned result
    /\ In item_T1 result /\ In item_T2 result /\ ~ In item_T3 result.
Proof.
  destruct (ReturnNewsInDateRange_inclusive (serving sample_data) sample_clock
              sample_runtime sample_data (Some 1731225600000) (Some 1731312000000)
              (serving_fetches sample_data))
    as (keep & result & Hrun & _ & Hin & _).
  exists result. split; [exact Hrun |].
  specialize (Hin _ _ eq_refl eq_refl).
  split; [| split].
  - apply Hin. split; [simpl; auto |]. eexists. split; [reflexivity | lia].
  - apply Hin. split; [simpl; auto |]. eexists. split; [reflexivity | lia].
  - intros Hresult. apply Hin in Hresult as (_ & t & Ht & Hrange).
    vm_compute in Ht. injection Ht as <-. lia.
Defined.

(** X9: [ReturnNewsFromSource(source)] returns, in their order, the fetched
    items whose source equals [source] once both are lowercased; every
    fetched item is among the items returned for its own source, and
    arguments with the same lowercase form return the same. *)
Theorem ReturnNewsFromSource_exact_match
    (fetch : string -> FetchOutcome) (rt : Runtime) (data : list NewsItem)
    (source0 : string) :
  fetches fetch (receiver rt) data ->
  exists (keep : NewsItem -> bool) (result : list NewsItem),
    fst (ReturnNewsFromSource fetch source0 rt) = Returned result
    /\ result = filter keep data
    /\ (forall newsItem,
           In newsItem result
           <-> In newsItem data
               /\ toLowerCase (source (item newsItem)) = toLowerCase source0)
    /\ (forall newsItem,
           In newsItem data -> source (item newsItem) = source0 -> In newsItem result)
    /\ (forall source', toLowerCase source' = toLowerCase source0 ->
          fst (ReturnNewsFromSource fetch source' rt) = Returned result).
Proof.
  intros Hfetch. apply snapshot_fetches in Hfetch.
  run_query (ReturnNewsFromSource_run fetch source0 rt). rewrite Hfetch.
  eexists. eexists. split; [reflexivity |]. split; [reflexivity |].
  split; [| split].
  - intros newsItem. rewrite filter_In, String.eqb_eq. tauto.
  - intros newsItem Hin <-. apply filter_In. split; [exact Hin |].
    apply String.eqb_refl.
  - intros source' Hlower.
    run_query (ReturnNewsFromSource_run fetch source' rt).
    rewrite Hfetch, Hlower. reflexivity.
Qed.

Lemma ReturnNewsFromSource_exact_match_witness :
  fst (ReturnNewsFromSource (serving sample_data) "Bbc" sample_runtime)
  = Returned sample_data.
Proof.
  destruct (ReturnNewsFromSource_exact_match (serving sample_data) sample_runtime
              sample_data "bbc" (serving_fetches sample_data))
    as (keep & result & Hrun & _ & _ & _ & Hcase).
  rewrite (Hcase "Bbc"%string eq_refl), <- Hrun. reflexivity.
Defined.

Lemma forallb_same_elements {A : Type} (p : A -> bool) (l l' : list A) :
  (forall x, In x l <-> In x l') -> forallb p l = forallb p l'.
Proof.
  intros Hsame. apply Bool.eq_true_iff_eq. rewrite !forallb_forall.
  split; intros Hall x Hx; apply Hall, Hsame, Hx.
Qed.

(** X10: [ReturnNewsWithMultipleCategories(categories)] returns, in their
    order, the fetched items that have every one of the given topics (each
    compared as in [ReturnNewsWithATopic]); the empty list of categories
    returns every fetched item, a list of one category returns what
    [ReturnNewsWithATopic] returns for it, and the result depends only on
    which categories are listed, not on their order or repetition. *)
Theorem ReturnNewsWithMultipleCategories_all
    (fetch : string -> FetchOutcome) (rt : Runtime) (data : list NewsItem)
    (categories0 : list string) :
  fetches fetch (receiver rt) data ->
  exists (keep : NewsItem -> bool) (result : list NewsItem),
    fst (ReturnNewsWithMultipleCategories fetch categories0 rt) = Returned result
    /\ result = filter keep data
    /\ (forall newsItem,
           In newsItem result
           <-> In newsItem data
               /\ forall category, In category categories0 -> has_topic category newsItem)
    /\ (categories0 = [] -> result = data)
    /\ (forall category, categories0 = [category] ->
          fst (ReturnNewsWithATopic fetch category rt) = Returned result)
    /\ (forall categories',
           (forall category, In category categories' <-> In category categories0) ->
           fst (ReturnNewsWithMultipleCategories fetch categories' rt) = Returned result).
Proof.
  intros Hfetch. apply snapshot_fetches in Hfetch.
  run_query (ReturnNewsWithMultipleCategories_run fetch categories0 rt). rewrite Hfetch.
  eexists. eexists. split; [reflexivity |]. split; [reflexivity |].
  split; [| split; [| split]].
  - intros newsItem. rewrite filter_In, forallb_forall. split.
    + intros [Hin Hall]. split; [exact Hin |]. intros category Hcategory.
      apply existsb_topic, Hall, in_map, Hcategory.
    + intros [Hin Hall]. split; [exact Hin |]. intros searchCat HsearchCat.
      apply in_map_iff in HsearchCat as (category & <- & Hcategory).
      apply existsb_topic, Hall, Hcategory.
  - intros ->. apply filter_all. reflexivity.
  - intros category ->.
    run_query (ReturnNewsWithATopic_run fetch category rt). rewrite Hfetch.
    f_equal. apply filter_ext. intros newsItem. simpl. rewrite andb_true_r. reflexivity.
  - intros categories' Hsets.
    run_query (ReturnNewsWithMultipleCategories_run fetch categories' rt). rewrite Hfetch.
    f_equal. apply filter_ext. intros newsItem. apply forallb_same_elements.
    intros searchCat. rewrite !in_map_iff.
    split; intros (category & <- & Hcategory); exists category;
      (split; [reflexivity | apply Hsets, Hcategory]).
Qed.

Lemma ReturnNewsWithMultipleCategories_all_witness :
  exists result,
    fst (ReturnNewsWithMultipleCategories (serving sample_data) ["tech"%string; "SPORTS"%string]
           sample_runtime) = Returned result
    /\ ~ In item_T1 result.
Proof.
  destruct (ReturnNewsWithMultipleCategories_all (serving sample_data) sample_runtime
              sample_data ["tech"%string; "SPORTS"%string] (serving_fetches sample_data))
    as (keep & result & Hrun & _ & Hin & _).
  exists result. split; [exact Hrun |].
  intros Hresult. apply Hin in Hresult as [_ Hall].
  destruct (Hall "tech"%string) as (cat & Hcat & Hlower); [simpl; auto |].
  simpl in Hcat. destruct Hcat as [<- | [<- | []]]; discriminate.
Defined.

(* ================================================================= *)
(** ** More about sources and their ranking *)

Lemma precedes_app_l {A : Type} (x y : A) (l r : list A) :
  precedes x y l -> precedes x y (l ++ r).
Proof.
  induction l as [| z l IH]; simpl; [tauto |].
  intros [[-> Hy] | Hprec]; [left | right; auto].
  split; [reflexivity | apply in_or_app; auto].
Qed.

Lemma precedes_app_lr {A : Type} (x y : A) (l r : list A) :
  In x l -> In y r -> precedes x y (l ++ r).
Proof.
  induction l as [| z l IH]; simpl; [tauto |].
  intros [-> | Hx] Hy; [left | right; auto].
  split; [reflexivity | apply in_or_app; auto].
Qed.

Lemma precedes_map_inv {A B : Type} (f : A -> B) (u v : B) (l : list A) :
  precedes u v (map f l) ->
  exists x y, f x = u /\ f y = v /\ precedes x y l.
Proof.
  induction l as [| z l IH]; simpl; [tauto |].
  intros [[<- Hv] | Hprec].
  - apply in_map_iff in Hv as (y & <- & Hy).
    exists z, y. repeat split. left. auto.
  - destruct (IH Hprec) as (x & y & Hx & Hy & Hxy).
    exists x, y. repeat split; auto.
Qed.

Lemma index_of_inj (a b : string) (l : list string) :
  In a l -> index_of a l = index_of b l -> a = b.
Proof.
  induction l as [| z l IH]; simpl; [tauto |].
  destruct (String.eqb_spec z a) as [Hza | Hza];
    destruct (String.eqb_spec z b) as [Hzb | Hzb]; try congruence; try discriminate.
  intros [Heq | Hin] Hidx; [congruence |].
  apply IH; [exact Hin | congruence].
Qed.

(** The sources (or categories) ranked by count: the keys of the counting
    map of [l] after the sort. *)
Lemma ranked_keys_NoDup (l : list string) :
  NoDup (map fst (sort (tally l) by_count_desc)).
Proof.
  eapply Permutation_NoDup; [symmetry; apply ranked_keys_perm | apply Set_new_NoDup].
Qed.

Lemma ranked_keys_In (k : string) (l : list string) :
  In k (map fst (sort (tally l) by_count_desc)) <-> In k l.
Proof.
  rewrite <- (Set_new_In k l).
  split; apply Permutation_in; [| symmetry]; apply ranked_keys_perm.
Qed.

Lemma ranked_entry_count (entry : string * Z) (l : list string) :
  In entry (sort (tally l) by_count_desc) ->
  snd entry = occurrences (fst entry) l /\ In (fst entry) l.
Proof.
  intros Hin. apply sort_In in Hin. apply tally_entry_count, Hin.
Qed.

(** In the ranking, what comes first is counted at least as often. *)
Lemma ranked_keys_sorted (a b : string) (l : list string) :
  precedes a b (map fst (sort (tally l) by_count_desc)) ->
  occurrences b l <= occurrences a l.
Proof.
  intros Hprec.
  apply precedes_map_inv in Hprec as (ea & eb & <- & <- & Hprec).
  destruct (precedes_In _ _ _ Hprec) as [Ha Hb].
  apply ranked_entry_count in Ha as [<- _]. apply ranked_entry_count in Hb as [<- _].
  apply (precedes_sorted (fun x y : string * Z => - snd x <= - snd y)) in Hprec.
  - lia.
  - apply (sort_sorted by_count_desc (fun entry => - snd entry) by_count_desc_rank).
Qed.

(** In the ranking, of two keys counted equally often the first was met
    first. *)
Lemma ranked_keys_tie_inv (a b : string) (l : list string) :
  precedes a b (map fst (sort (tally l) by_count_desc)) ->
  occurrences a l = occurrences b l ->
  (index_of a l < index_of b l)%nat.
Proof.
  intros Hprec Heq.
  destruct (precedes_In _ _ _ Hprec) as [Ha Hb].
  apply (proj1 (ranked_keys_In _ _)) in Ha, Hb.
  apply (precedes_index_of _ _ _ (ranked_keys_NoDup l)) in Hprec.
  destruct (Nat.lt_trichotomy (index_of a l) (index_of b l)) as [Hlt | [Hsame | Hgt]].
  - exact Hlt.
  - apply index_of_inj in Hsame; [| exact Ha]. subst b. lia.
  - apply (ranked_keys_tie b a l Ha (eq_sym Heq)) in Hgt. lia.
Qed.

(** The sources of what [ReturnTopSourcesByArticleCount] returns are a
    prefix of the ranking. *)
Lemma top_sources_prefix (l : list string) (limit : Z) :
  exists n,
    map sc_source (map (fun entry => {| sc_source := fst entry; sc_count := snd entry |})
                       (slice (sort (tally l) by_count_desc) 0 limit))
    = firstn n (map fst (sort (tally l) by_count_desc))
    /\ (0 <= limit -> Z.of_nat n <= limit).
Proof.
  rewrite slice_from_start, map_map. simpl. rewrite <- firstn_map.
  eexists. split; [reflexivity |].
  intros Hlimit. unfold slice_bound.
  destruct (Z.ltb_spec limit 0); lia.
Qed.

Lemma top_entry_count (e : SourceCount) (l : list string) (limit : Z) :
  In e (map (fun entry => {| sc_source := fst entry; sc_count := snd entry |})
            (slice (sort (tally l) by_count_desc) 0 limit)) ->
  sc_count e = occurrences (sc_source e) l /\ In (sc_source e) l.
Proof.
  intros He. apply in_map_iff in He as (entry & <- & Hentry). simpl.
  apply slice_In, ranked_entry_count in Hentry. exact Hentry.
Qed.

(** X11: [ReturnAllSources] returns the source texts of the fetched items,
    each once and no other text, in the order in which they first occur in
    the fetched items; there are as many as there are distinct source texts,
    and never more than items. *)
Theorem ReturnAllSources_first_seen
    (fetch : string -> FetchOutcome) (rt : Runtime) (data : list NewsItem) :
  fetches fetch (receiver rt) data ->
  exists sources,
    fst (ReturnAllSources fetch rt) = Returned sources
    /\ NoDup sources
    /\ (forall s, In s sources <-> In s (all_sources data))
    /\ List.length sources = List.length (nodup string_dec (all_sources data))
    /\ (List.length sources <= List.length data)%nat
    /\ (forall a b,
           In b (all_sources data) ->
           (index_of a (all_sources data) < index_of b (all_sources data))%nat ->
           (index_of a sources < index_of b sources)%nat).
Proof.
  intros Hfetch. apply snapshot_fetches in Hfetch.
  run_query (ReturnAllSources_run fetch rt). rewrite Hfetch. fold (all_sources data).
  eexists. split; [reflexivity |].
  split; [apply Set_new_NoDup |].
  split; [intros s; apply Set_new_In |].
  split; [| split].
  - apply Permutation_length, NoDup_Permutation.
    + apply Set_new_NoDup.
    + apply NoDup_nodup.
    + intros s. rewrite Set_new_In, nodup_In. tauto.
  - replace (List.length data) with (List.length (all_sources data))
      by (unfold all_sources; apply length_map).
    apply NoDup_incl_length; [apply Set_new_NoDup |].
    intros s Hs. apply Set_new_In, Hs.
  - intros a b. apply Set_new_index_of.
Qed.

Lemma ReturnAllSources_first_seen_witness :
  exists sources,
    fst (ReturnAllSources (serving sample_data) sample_runtime) = Returned sources
    /\ List.length sources = 2%nat
    /\ (index_of "BBC" sources < index_of "bbc" sources)%nat.
Proof.
  destruct (ReturnAllSources_first_seen (serving sample_data) sample_runtime sample_data
              (serving_fetches sample_data))
    as (sources & Hrun & _ & _ & Hlength & _ & Horder).
  exists sources. split; [exact Hrun |]. split; [exact Hlength |].
  apply Horder; [simpl; auto | simpl; lia].
Defined.

Lemma precedes_firstn {A : Type} (x y : A) (n : nat) (l : list A) :
  precedes x y (firstn n l) -> precedes x y l.
Proof.
  intros Hprec. rewrite <- (firstn_skipn n l). apply precedes_app_l, Hprec.
Qed.

Lemma In_after_firstn {A : Type} (x : A) (n : nat) (l : list A) :
  In x l -> ~ In x (firstn n l) -> In x (skipn n l).
Proof.
  intros Hin Hnot. rewrite <- (firstn_skipn n l) in Hin.
  apply in_app_or in Hin. tauto.
Qed.

(** X12: what [ReturnTopSourcesByArticleCount(limit)] returns is ranked:
    each source at most once; an entry counts at least as many items as
    every entry after it; of two entries with the same count the one whose
    source was met first comes first; and the cut keeps the top: a source
    that is left out counts no more items than any entry returned.  For a
    limit of 0 or more there are at most [limit] entries. *)
Theorem ReturnTopSourcesByArticleCount_ranked
    (fetch : string -> FetchOutcome) (rt : Runtime) (data : list NewsItem) (limit : Z) :
  fetches fetch (receiver rt) data ->
  exists top,
    fst (ReturnTopSourcesByArticleCount fetch (Some limit) rt) = Returned top
    /\ NoDup (map sc_source top)
    /\ (0 <= limit -> Z.of_nat (List.length top) <= limit)
    /\ (forall a b, precedes a b top -> sc_count b <= sc_count a)
    /\ (forall a b,
           precedes a b top -> sc_count a = sc_count b ->
           (index_of (sc_source a) (all_sources data)
            < index_of (sc_source b) (all_sources data))%nat)
    /\ (forall e s,
           In e top -> In s (all_sources data) -> ~ In s (map sc_source top) ->
           occurrences s (all_sources data) <= sc_count e).
Proof.
  intros Hfetch. apply snapshot_fetches in Hfetch.
  run_query (ReturnTopSourcesByArticleCount_run fetch (Some limit) rt).
  rewrite Hfetch, sourceCount_tally.
  destruct (top_sources_prefix (all_sources data) limit) as (n & Hkeys & Hn).
  eexists. split; [reflexivity |].
  split; [| split; [| split; [| split]]].
  - rewrite Hkeys.
    apply (NoDup_app_remove_r _ (skipn n (map fst (sort (tally (all_sources data))
                                                        by_count_desc)))).
    rewrite firstn_skipn. apply ranked_keys_NoDup.
  - intros Hlimit. specialize (Hn Hlimit).
    rewrite <- (length_map sc_source), Hkeys.
    pose proof (firstn_le_length n (map fst (sort (tally (all_sources data))
                                                  by_count_desc))) as Hle.
    rewrite length_firstn. lia.
  - intros a b Hprec.
    destruct (precedes_In _ _ _ Hprec) as [Ha Hb].
    apply top_entry_count in Ha as [-> _]. apply top_entry_count in Hb as [-> _].
    apply ranked_keys_sorted, (precedes_firstn _ _ n).
    rewrite <- Hkeys. apply precedes_map, Hprec.
  - intros a b Hprec Hcount.
    destruct (precedes_In _ _ _ Hprec) as [Ha Hb].
    apply top_entry_count in Ha as [Ha _]. apply top_entry_count in Hb as [Hb _].
    apply ranked_keys_tie_inv; [| congruence].
    apply (precedes_firstn _ _ n).
    rewrite <- Hkeys. apply precedes_map, Hprec.
  - intros e s He Hs Hout.
    pose proof (in_map sc_source _ _ He) as Hkey.
    apply top_entry_count in He as [-> _].
    rewrite Hkeys in Hout, Hkey.
    apply ranked_keys_sorted.
    rewrite <- (firstn_skipn n (map fst (sort (tally (all_sources data)) by_count_desc))).
    apply precedes_app_lr; [exact Hkey |].
    apply In_after_firstn; [apply ranked_keys_In, Hs | exact Hout].
Qed.

Lemma ReturnTopSourcesByArticleCount_ranked_witness :
  exists top,
    fst (ReturnTopSourcesByArticleCount (serving sample_data) (Some 1) sample_runtime)
    = Returned top
    /\ Z.of_nat (List.length top) <= 1.
Proof.
  destruct (ReturnTopSourcesByArticleCount_ranked (serving sample_data) sample_runtime
              sample_data 1 (serving_fetches sample_data))
    as (top & Hrun & _ & Hlength & _).
  exists top. split; [exact Hrun | apply Hlength; lia].
Defined.

(** X13: with limit 1 and a collection that is not empty,
    [ReturnTopSourcesByArticleCount] returns one entry: a source with the
    most items, with its number of items, and among the sources with the
    most items the one met first. *)
Theorem ReturnTopSourcesByArticleCount_top_one
    (fetch : string -> FetchOutcome) (rt : Runtime) (data : list NewsItem) :
  fetches fetch (receiver rt) data ->
  data <> [] ->
  exists e,
    fst (ReturnTopSourcesByArticleCount fetch (Some 1) rt) = Returned [e]
    /\ In (sc_source e) (all_sources data)
    /\ sc_count e = occurrences (sc_source e) (all_sources data)
    /\ (forall s, In s (all_sources data) ->
                  occurrences s (all_sources data) <= sc_count e)
    /\ (forall s, In s (all_sources data) ->
                  occurrences s (all_sources data) = sc_count e ->
                  (index_of (sc_source e) (all_sources data)
                   <= index_of s (all_sources data))%nat).
Proof.
  intros Hfetch Hdata. apply snapshot_fetches in Hfetch.
  run_query (ReturnTopSourcesByArticleCount_run fetch (Some 1) rt).
  rewrite Hfetch, sourceCount_tally.
  pose proof (ranked_keys_In) as Hkeys.
  pose proof (ranked_keys_sorted) as Hsorted.
  pose proof (ranked_keys_tie_inv) as Htie.
  pose proof (ranked_entry_count) as Hentry.
  specialize (Hkeys) with (l := all_sources data).
  specialize (Hsorted) with (l := all_sources data).
  specialize (Htie) with (l := all_sources data).
  specialize (Hentry) with (l := all_sources data).
  destruct (sort (tally (all_sources data)) by_count_desc) as [| r ranking].
  - exfalso. destruct data as [| newsItem data]; [congruence |].
    apply (Hkeys (source (item newsItem))). simpl. auto.
  - rewrite slice_nonneg by lia. simpl.
    destruct (Hentry r (or_introl eq_refl)) as [Hcount Hin].
    exists {| sc_source := fst r; sc_count := snd r |}. simpl.
    split; [reflexivity |]. split; [exact Hin |]. split; [exact Hcount |].
    split.
    + intros s Hs. apply Hkeys in Hs. simpl in Hs.
      destruct Hs as [<- | Hs]; [lia |].
      rewrite Hcount. apply Hsorted. simpl. left. auto.
    + intros s Hs Hequal. apply Hkeys in Hs. simpl in Hs.
      destruct Hs as [<- | Hs]; [lia |].
      apply Nat.lt_le_incl, Htie; [simpl; left; auto | lia].
Qed.

Lemma ReturnTopSourcesByArticleCount_top_one_witness :
  exists e,
    fst (ReturnTopSourcesByArticleCount (serving sample_data) (Some 1) sample_runtime)
    = Returned [e]
    /\ occurrences "bbc" (all_sources sample_data) <= sc_count e.
Proof.
  destruct (ReturnTopSourcesByArticleCount_top_one (serving sample_data) sample_runtime
              sample_data (serving_fetches sample_data))
    as (e & Hrun & _ & _ & Hmax & _); [discriminate |].
  exists e. split; [exact Hrun |]. apply Hmax. simpl. auto.
Defined.

Lemma count_up_sum (m : JsMap) (k : string) :
  sum_counts (map snd (count_up m k)) = sum_counts (map snd m) + 1.
Proof.
  unfold count_up. induction m as [| [k' v] m IH]; simpl; [reflexivity |].
  destruct (k' =? k)%string; simpl.
  - lia.
  - unfold sum_counts in *. simpl in *.
    destruct (Map_get m k); simpl in *; lia.
Qed.

Lemma tally_sum (l : list string) :
  sum_counts (map snd (tally l)) = Z.of_nat (List.length l).
Proof.
  unfold tally.
  assert (Hgen : forall m, sum_counts (map snd (fold_left count_up l m))
                           = sum_counts (map snd m) + Z.of_nat (List.length l)).
  { induction l as [| k l IH]; intros m; simpl List.length; simpl fold_left; [lia |].
    rewrite IH, count_up_sum. lia. }
  rewrite Hgen. reflexivity.
Qed.

Lemma sum_counts_perm (l l' : list Z) :
  Permutation l l' -> sum_counts l = sum_counts l'.
Proof.
  unfold sum_counts. induction 1; simpl; lia.
Qed.

Lemma sum_counts_firstn (n : nat) (l : list Z) :
  Forall (fun v => 0 <= v) l ->
  0 <= sum_counts (firstn n l) <= sum_counts l.
Proof.
  unfold sum_counts. intros Hall. revert n.
  induction Hall as [| v l Hv Hall IH]; intros [| n]; simpl; try lia.
  - specialize (IH 0%nat). simpl in IH. lia.
  - specialize (IH n). lia.
Qed.

(** X14: the counts [ReturnTopSourcesByArticleCount] returns add up to no
    more than the number of fetched items, and to exactly that number when
    the limit is at least the number of items, so that no source is cut
    off. *)
Theorem ReturnTopSourcesByArticleCount_total
    (fetch : string -> FetchOutcome) (rt : Runtime) (data : list NewsItem) (limit : Z) :
  fetches fetch (receiver rt) data ->
  exists top,
    fst (ReturnTopSourcesByArticleCount fetch (Some limit) rt) = Returned top
    /\ 0 <= sum_counts (map sc_count top) <= Z.of_nat (List.length data)
    /\ (Z.of_nat (List.length data) <= limit ->
        sum_counts (map sc_count top) = Z.of_nat (List.length data)).
Proof.
  intros Hfetch. apply snapshot_fetches in Hfetch.
  run_query (ReturnTopSourcesByArticleCount_run fetch (Some limit) rt).
  rewrite Hfetch, sourceCount_tally.
  eexists. split; [reflexivity |].
  rewrite map_map. simpl.
  assert (Htotal : sum_counts (map snd (sort (tally (all_sources data)) by_count_desc))
                   = Z.of_nat (List.length data)).
  { rewrite (sum_counts_perm _ (map snd (tally (all_sources data))))
      by (apply Permutation_map, sort_perm).
    rewrite tally_sum. unfold all_sources. rewrite length_map. reflexivity. }
  split.
  - rewrite slice_from_start, <- firstn_map, <- Htotal.
    apply sum_counts_firstn. rewrite Forall_forall. intros v Hv.
    apply in_map_iff in Hv as (entry & <- & Hentry).
    apply ranked_entry_count in Hentry as [-> _]. unfold occurrences. lia.
  - intros Hlimit. rewrite slice_all; [exact Htotal |].
    rewrite (Permutation_length (sort_perm by_count_desc _)).
    rewrite tally_keyed, length_map.
    assert (Hle : (List.length (Set_new (all_sources data))
                   <= List.length (all_sources data))%nat).
    { apply NoDup_incl_length; [apply Set_new_NoDup |].
      intros s Hs. apply Set_new_In, Hs. }
    unfold all_sources in Hle at 2. rewrite length_map in Hle. lia.
Qed.

Lemma ReturnTopSourcesByArticleCount_total_witness :
  exists top,
    fst (ReturnTopSourcesByArticleCount (serving sample_data) (Some 5) sample_runtime)
    = Returned top
    /\ sum_counts (map sc_count top) = 3.
Proof.
  destruct (ReturnTopSourcesByArticleCount_total (serving sample_data) sample_runtime
              sample_data 5 (serving_fetches sample_data))
    as (top & Hrun & _ & Htotal).
  exists top. split; [exact Hrun |]. apply Htotal. simpl. lia.
Defined.

(* ================================================================= *)
(** ** More about ReturnLatestNews *)



(** X16: [ReturnLatestNews] keeps the fetched order of items published at
    the same time: on items whose [published] are dates, and with a limit
    that cuts nothing off, an item that comes before another of the same
    time in the fetched collection comes before it in the result. *)
Theorem ReturnLatestNews_stable
    (fetch : string -> FetchOutcome) (Date_getTime : string -> option Z)
    (rt : Runtime) (data : list NewsItem) (limit : Z) :
  fetches fetch (receiver rt) data ->
  Forall (valid_date Date_getTime) data ->
  Z.of_nat (List.length data) <= limit ->
  exists result,
    fst (ReturnLatestNews fetch Date_getTime (Some limit) rt) = Returned result
    /\ (forall a b t,
           Date_getTime (published (item a)) = Some t ->
           Date_getTime (published (item b)) = Some t ->
           precedes a b data -> precedes a b result).
Proof.
  intros Hfetch Hvalid Hlimit. apply snapshot_fetches in Hfetch.
  run_query (ReturnLatestNews_run fetch Date_getTime (Some limit) rt). rewrite Hfetch.
  eexists. split; [reflexivity |].
  intros a b t Ha Hb Hprec.
  rewrite slice_all
    by (rewrite (Permutation_length (sort_perm _ data)); exact Hlimit).
  rewrite sort_by_published_desc by exact Hvalid.
  apply (sort_precedes_tie _ (fun newsItem =>
                                - or_zero (Date_getTime (published (item newsItem))))
                           (by_rank_rank Date_getTime)).
  - exact Hprec.
  - rewrite Ha, Hb. reflexivity.
Qed.

Lemma ReturnLatestNews_stable_witness :
  let twin := sample_item "CNN" [] "2024-11-10T08:00:00Z" in
  exists result,
    fst (ReturnLatestNews (serving [item_T1; item_T3; twin]) sample_clock (Some 10)
           sample_runtime) = Returned result
    /\ precedes item_T1 twin result.
Proof.
  intros twin.
  destruct (ReturnLatestNews_stable (serving [item_T1; item_T3; twin]) sample_clock
              sample_runtime [item_T1; item_T3; twin] 10
              (serving_fetches [item_T1; item_T3; twin]))
    as (result & Hrun & Hstable).
  - repeat constructor; discriminate.
  - simpl. lia.
  - exists result. split; [exact Hrun |].
    apply (Hstable item_T1 twin 1731225600000); [reflexivity | reflexivity |].
    simpl. left. auto.
Defined.

(* ================================================================= *)
(** ** The listings and the filters agree *)

Lemma filter_nonempty {A : Type} (p : A -> bool) (l : list A) :
  filter p l <> [] <-> exists x, In x l /\ p x = true.
Proof.
  split.
  - destruct (filter p l) as [| x rest] eqn:Hfilter; [congruence |].
    intros _. exists x. apply filter_In. rewrite Hfilter. left. reflexivity.
  - intros (x & Hin & Hp) Hempty.
    assert (Hx : In x (filter p l)) by (apply filter_In; auto).
    rewrite Hempty in Hx. exact Hx.
Qed.

(** X17: [ReturnAllTopics] and [ReturnNewsWithATopic] agree: the query for
    a category returns some item exactly when a listed topic has the same
    lowercase form; in particular it returns some item for every listed
    topic. *)
Theorem listed_topics_have_news
    (fetch : string -> FetchOutcome) (rt : Runtime) (data : list NewsItem)
    (category : string) :
  fetches fetch (receiver rt) data ->
  exists topics result,
    fst (ReturnAllTopics fetch rt) = Returned topics
    /\ fst (ReturnNewsWithATopic fetch category rt) = Returned result
    /\ (result <> []
        <-> exists topic, In topic topics /\ toLowerCase topic = toLowerCase category)
    /\ (In category topics -> result <> []).
Proof.
  intros Hfetch. apply snapshot_fetches in Hfetch.
  run_query (ReturnAllTopics_run fetch rt).
  run_query (ReturnNewsWithATopic_run fetch category rt).
  rewrite Hfetch, categoryFrequency_tally.
  eexists. eexists. split; [reflexivity |]. split; [reflexivity |].
  assert (Hiff : filter (fun newsItem =>
                           existsb (fun cat => (toLowerCase cat =? toLowerCase category)%string)
                                   (categories (item newsItem))) data <> []
                 <-> exists topic,
                       In topic (map fst (sort (tally (all_categories data)) by_count_desc))
                       /\ toLowerCase topic = toLowerCase category).
  { rewrite filter_nonempty. split.
    - intros (newsItem & Hin & Hkeep).
      apply existsb_topic in Hkeep as (cat & Hcat & Hlower).
      exists cat. split; [| exact Hlower].
      apply ranked_keys_In. unfold all_categories. apply in_flat_map.
      exists newsItem. auto.
    - intros (topic & Htopic & Hlower).
      apply (proj1 (ranked_keys_In _ _)) in Htopic. unfold all_categories in Htopic.
      apply in_flat_map in Htopic as (newsItem & Hin & Hcat).
      exists newsItem. split; [exact Hin |].
      apply existsb_topic. exists topic. auto. }
  split; [exact Hiff |].
  intros Hlisted. apply Hiff. exists category. auto.
Qed.

Lemma listed_topics_have_news_witness :
  exists topics result,
    fst (ReturnAllTopics (serving sample_data) sample_runtime) = Returned topics
    /\ fst (ReturnNewsWithATopic (serving sample_data) "TECH" sample_runtime)
       = Returned result
    /\ result <> [].
Proof.
  destruct (listed_topics_have_news (serving sample_data) sample_runtime sample_data "TECH"
              (serving_fetches sample_data))
    as (topics & result & Htopics & Hrun & Hiff & _).
  exists topics, result. split; [exact Htopics |]. split; [exact Hrun |].
  apply Hiff. exists "Tech"%string. split; [| reflexivity].
  assert (Hlist : Returned topics
                  = Returned ["Tech"%string; "World"%string; "Sports"%string;
                              "sports"%string; "Local"%string; "SPORTS"%string;
                              "Sportsmanship"%string])
    by (rewrite <- Htopics; vm_compute; reflexivity).
  injection Hlist as ->. simpl. auto.
Defined.

(** X18: [ReturnAllSources] and [ReturnNewsFromSource] agree: the query for
    a source returns some item exactly when a listed source has the same
    lowercase form; in particular it returns some item for every listed
    source. *)
Theorem listed_sources_have_news
    (fetch : string -> FetchOutcome) (rt : Runtime) (data : list NewsItem)
    (source0 : string) :
  fetches fetch (receiver rt) data ->
  exists sources result,
    fst (ReturnAllSources fetch rt) = Returned sources
    /\ fst (ReturnNewsFromSource fetch source0 rt) = Returned result
    /\ (result <> []
        <-> exists listed, In listed sources /\ toLowerCase listed = toLowerCase source0)
    /\ (In source0 sources -> result <> []).
Proof.
  intros Hfetch. apply snapshot_fetches in Hfetch.
  run_query (ReturnAllSources_run fetch rt).
  run_query (ReturnNewsFromSource_run fetch source0 rt).
  rewrite Hfetch.
  eexists. eexists. split; [reflexivity |]. split; [reflexivity |].
  assert (Hiff : filter (fun newsItem =>
                           (toLowerCase (source (item newsItem)) =? toLowerCase source0)%string)
                        data <> []
                 <-> exists listed,
                       In listed (Set_new (map (fun item0 => source (item item0)) data))
                       /\ toLowerCase listed = toLowerCase source0).
  { rewrite filter_nonempty. split.
    - intros (newsItem & Hin & Hkeep). apply String.eqb_eq in Hkeep.
      exists (source (item newsItem)). split; [| exact Hkeep].
      apply Set_new_In, in_map_iff. exists newsItem. auto.
    - intros (listed & Hlisted & Hlower).
      apply (proj1 (Set_new_In _ _)), in_map_iff in Hlisted as (newsItem & <- & Hin).
      exists newsItem. split; [exact Hin | apply String.eqb_eq, Hlower]. }
  split; [exact Hiff |].
  intros Hlisted. apply Hiff. exists source0. auto.
Qed.

Lemma listed_sources_have_news_witness :
  exists sources result,
    fst (ReturnAllSources (serving sample_data) sample_runtime) = Returned sources
    /\ fst (ReturnNewsFromSource (serving sample_data) "CNN" sample_runtime)
       = Returned result
    /\ result = [].
Proof.
  destruct (listed_sources_have_news (serving sample_data) sample_runtime sample_data "CNN"
              (serving_fetches sample_data))
    as (sources & result & Hsources & Hrun & Hiff & _).
  exists sources, result. split; [exact Hsources |]. split; [exact Hrun |].
  destruct result as [| newsItem rest]; [reflexivity |].
  exfalso.
  destruct (proj1 Hiff) as (listed & Hlisted & Hlower); [discriminate |].
  assert (Hlist : Returned sources = Returned ["BBC"%string; "bbc"%string])
    by (rewrite <- Hsources; vm_compute; reflexivity).
  injection Hlist as ->.
  simpl in Hlisted. destruct Hlisted as [<- | [<- | []]]; discriminate.
Defined.

(* ================================================================= *)
(** ** The date context over all numbers *)

Local Open Scope string_scope.
Local Open Scope Z_scope.

Lemma as_integer_of_Z (z : Z) : Numeric.as_integer (Numeric.of_Z z) = Some z.
Proof.
  unfold Numeric.as_integer, Numeric.of_Z.
  rewrite Z.mod_1_r, Z.div_1_r. reflexivity.
Qed.

Lemma lt_of_Z (a b : Z) : Numeric.lt (Numeric.of_Z a) (Numeric.of_Z b) = (a <? b).
Proof.
  unfold Numeric.lt, Numeric.of_Z. rewrite !Z.mul_1_r. reflexivity.
Qed.

Lemma Number_toString_of_Z (render : Z -> positive -> string) (z : Z) :
  Numeric.Number_toString render (Numeric.of_Z z) = Number_toString z.
Proof.
  unfold Numeric.Number_toString. rewrite as_integer_of_Z. reflexivity.
Qed.

(** Subtracting 1 keeps integers integers and everything else what it
    is. *)
Lemma as_integer_sub_one (x : Numeric.number) :
  Numeric.as_integer (Numeric.sub x (Numeric.of_Z 1))
  = option_map (fun z => z - 1) (Numeric.as_integer x).
Proof.
  destruct x as [n d | | upward]; simpl; try reflexivity.
  rewrite Pos.mul_1_r, Z.mul_1_r.
  replace (n - Z.pos d) with (n + (-1) * Z.pos d) by lia.
  rewrite Z_mod_plus_full, Z_div_plus_full by lia.
  destruct (n mod Z.pos d =? 0); simpl; [f_equal; lia | reflexivity].
Qed.

(** The lookup of [createUrl] over all numbers. *)
Lemma month_lookup (m : Numeric.number) :
  Numeric.Array_get monthNames (Numeric.sub m (Numeric.of_Z 1))
  = match Numeric.as_integer m with
    | Some z => Array_get monthNames (z - 1)
    | None => None
    end.
Proof.
  unfold Numeric.Array_get. rewrite as_integer_sub_one.
  destruct (Numeric.as_integer m); reflexivity.
Qed.

(** On integers the class over all numbers is the class over integers. *)
Lemma createUrl_on_integers (render : Z -> positive -> string) (this : NewsFetcher) :
  Numeric.createUrl render (numeric_of this) = createUrl this.
Proof.
  unfold Numeric.createUrl, createUrl, numeric_of, Numeric.constructor.
  cbn [Numeric.month Numeric.date Numeric.year Numeric.baseUrl].
  rewrite month_lookup, as_integer_of_Z, !Number_toString_of_Z. reflexivity.
Qed.

Lemma setDate_on_integers (d m y : Z) (rt : Runtime) :
  Numeric.setDate (Numeric.of_Z d) (Numeric.of_Z m) (Numeric.of_Z y)
                  (numeric_of (receiver rt))
  = (fst (setDate d m y rt), numeric_of (receiver (snd (setDate d m y rt)))).
Proof.
  rewrite setDate_run. unfold Numeric.setDate, Numeric.gt.
  rewrite !lt_of_Z, !Z.gtb_ltb.
  destruct ((d <? 1) || (31 <? d)); [reflexivity |].
  destruct ((m <? 1) || (12 <? m)); [reflexivity |].
  destruct ((y <? 2000) || (2100 <? y)); reflexivity.
Qed.

(** A range test of [setDate] fires exactly on a number that is not [NaN]
    and not within the range. *)
Lemma range_test_fires (lo hi : Z) (x : Numeric.number) :
  Numeric.lt x (Numeric.of_Z lo) || Numeric.gt x (Numeric.of_Z hi) = true
  <-> x <> Numeric.NaN /\ ~ Numeric.in_range lo hi x.
Proof.
  unfold Numeric.gt, Numeric.lt, Numeric.of_Z, Numeric.in_range.
  destruct x as [n d | | upward].
  - rewrite orb_true_iff, !Z.ltb_lt, !Z.mul_1_r.
    split; [intros Hout; split; [discriminate | lia] | intros [_ Hout]; lia].
  - simpl. split; [discriminate | intros [Hnan _]; congruence].
  - split; [intros _; split; [discriminate | tauto] |].
    intros _. destruct upward; reflexivity.
Qed.

Lemma range_test_passes (lo hi : Z) (x : Numeric.number) :
  Numeric.lt x (Numeric.of_Z lo) || Numeric.gt x (Numeric.of_Z hi) = false
  <-> x = Numeric.NaN \/ Numeric.in_range lo hi x.
Proof.
  unfold Numeric.gt, Numeric.lt, Numeric.of_Z, Numeric.in_range.
  destruct x as [n d | | upward].
  - rewrite orb_false_iff, !Z.ltb_ge, !Z.mul_1_r.
    split; [intros Hin; right; lia | intros [Hnan | Hin]; [discriminate | lia]].
  - simpl. split; auto.
  - split; [destruct upward; discriminate | intros [Hnan | []]; discriminate].
Qed.

(** C2: the range tests of [setDate] miss [NaN].  [setDate(NaN, NaN, NaN)]
    returns and stores [NaN] three times, although [NaN] is in no range.
    For all numbers, [setDate] throws exactly when some argument is a number
    below or above its range; so for arguments none of which is [NaN] it
    throws exactly when date is outside 1..31, month outside 1..12 or year
    outside 2000..2100.  The tests run in the order date, month, year, and
    the first that fires decides the message. *)
Theorem setDate_validation_misses_NaN :
  (forall this,
      Numeric.setDate Numeric.NaN Numeric.NaN Numeric.NaN this
      = (Returned tt,
         Numeric.constructor (Numeric.baseUrl this) Numeric.NaN Numeric.NaN Numeric.NaN))
  /\ ~ Numeric.in_range 1 31 Numeric.NaN
  /\ (forall date month year this,
         ((exists e, fst (Numeric.setDate date month year this) = Thrown e)
          <-> Numeric.out_of_range 1 31 date
              \/ Numeric.out_of_range 1 12 month
              \/ Numeric.out_of_range 2000 2100 year)
         /\ (Numeric.out_of_range 1 31 date ->
             fst (Numeric.setDate date month year this) = Thrown (Error "Invalid date"))
         /\ (~ Numeric.out_of_range 1 31 date -> Numeric.out_of_range 1 12 month ->
             fst (Numeric.setDate date month year this) = Thrown (Error "Invalid month"))
         /\ (~ Numeric.out_of_range 1 31 date -> ~ Numeric.out_of_range 1 12 month ->
             Numeric.out_of_range 2000 2100 year ->
             fst (Numeric.setDate date month year this) = Thrown (Error "Invalid year")))
  /\ (forall date month year this,
         date <> Numeric.NaN -> month <> Numeric.NaN -> year <> Numeric.NaN ->
         ((exists e, fst (Numeric.setDate date month year this) = Thrown e)
          <-> ~ Numeric.in_range 1 31 date
              \/ ~ Numeric.in_range 1 12 month
              \/ ~ Numeric.in_range 2000 2100 year)).
Proof.
  assert (Hgeneral : forall date month year this,
             ((exists e, fst (Numeric.setDate date month year this) = Thrown e)
              <-> Numeric.out_of_range 1 31 date
                  \/ Numeric.out_of_range 1 12 month
                  \/ Numeric.out_of_range 2000 2100 year)
             /\ (Numeric.out_of_range 1 31 date ->
                 fst (Numeric.setDate date month year this) = Thrown (Error "Invalid date"))
             /\ (~ Numeric.out_of_range 1 31 date -> Numeric.out_of_range 1 12 month ->
                 fst (Numeric.setDate date month year this) = Thrown (Error "Invalid month"))
             /\ (~ Numeric.out_of_range 1 31 date -> ~ Numeric.out_of_range 1 12 month ->
                 Numeric.out_of_range 2000 2100 year ->
                 fst (Numeric.setDate date month year this) = Thrown (Error "Invalid year"))).
  { intros date month year this. unfold Numeric.setDate, Numeric.out_of_range.
    pose proof (range_test_fires 1 31 date) as Hd.
    pose proof (range_test_fires 1 12 month) as Hm.
    pose proof (range_test_fires 2000 2100 year) as Hy.
    destruct (Numeric.lt date (Numeric.of_Z 1) || Numeric.gt date (Numeric.of_Z 31)).
    { simpl. split; [| tauto]. split; [intros _; left; tauto | intros _; eexists; reflexivity]. }
    assert (Hd' : ~ (date <> Numeric.NaN /\ ~ Numeric.in_range 1 31 date))
      by (intros H; apply Hd in H; discriminate).
    destruct (Numeric.lt month (Numeric.of_Z 1) || Numeric.gt month (Numeric.of_Z 12)).
    { simpl. split; [| tauto].
      split; [intros _; right; left; tauto | intros _; eexists; reflexivity]. }
    assert (Hm' : ~ (month <> Numeric.NaN /\ ~ Numeric.in_range 1 12 month))
      by (intros H; apply Hm in H; discriminate).
    destruct (Numeric.lt year (Numeric.of_Z 2000) || Numeric.gt year (Numeric.of_Z 2100)).
    { simpl. split; [| tauto].
      split; [intros _; right; right; tauto | intros _; eexists; reflexivity]. }
    assert (Hy' : ~ (year <> Numeric.NaN /\ ~ Numeric.in_range 2000 2100 year))
      by (intros H; apply Hy in H; discriminate).
    simpl. split; [| tauto].
    split; [intros [e He]; discriminate | tauto]. }
  split; [reflexivity |]. split; [simpl; tauto |]. split; [exact Hgeneral |].
  intros date month year this Hd Hm Hy.
  rewrite (proj1 (Hgeneral date month year this)). unfold Numeric.out_of_range. tauto.
Qed.

Lemma setDate_validation_misses_NaN_witness :
  fst (Numeric.setDate (Numeric.Finite 63 2) Numeric.NaN (Numeric.of_Z 1999)
         (Numeric.constructor "https://api.news.com" (Numeric.of_Z 12) (Numeric.of_Z 11)
                              (Numeric.of_Z 2024)))
  = Thrown (Error "Invalid date")
  /\ fst (Numeric.setDate (Numeric.Finite 3 2) Numeric.NaN (Numeric.of_Z 1999)
            (Numeric.constructor "https://api.news.com" (Numeric.of_Z 12) (Numeric.of_Z 11)
                                 (Numeric.of_Z 2024)))
     = Thrown (Error "Invalid year").
Proof.
  split.
  - apply (proj1 (proj2 (proj1 (proj2 (proj2 setDate_validation_misses_NaN)) _ _ _ _))).
    split; [discriminate | simpl; lia].
  - apply (proj2 (proj2 (proj2 (proj1 (proj2 (proj2 setDate_validation_misses_NaN))
                                  _ _ _ _)))).
    + intros [_ Hout]. apply Hout. simpl. lia.
    + intros [Hnan _]. congruence.
    + split; [discriminate | simpl; lia].
Defined.

Lemma has_uppercase_append (a b : string) :
  has_uppercase (a ++ b) = has_uppercase a || has_uppercase b.
Proof.
  induction a as [| c a IH]; simpl; [reflexivity |].
  rewrite IH, orb_assoc. reflexivity.
Qed.

Lemma is_substring_uppercase (t s : string) :
  is_substring t s -> has_uppercase t = true -> has_uppercase s = true.
Proof.
  intros (before & after & ->) Ht.
  rewrite !has_uppercase_append, Ht, orb_true_r. reflexivity.
Qed.

Lemma Number_toString_no_uppercase (z : Z) :
  has_uppercase (Number_toString z) = false.
Proof.
  assert (Hdigits : forall u, has_uppercase (NilEmpty.string_of_uint u) = false)
    by (induction u; simpl; auto).
  assert (Hunsigned : forall u, has_uppercase (NilZero.string_of_uint u) = false)
    by (intros [| u | u | u | u | u | u | u | u | u | u]; try reflexivity; apply Hdigits).
  unfold Number_toString. destruct (Z.to_int z) as [u | u]; simpl; apply Hunsigned.
Qed.

Lemma padStart_no_uppercase (s : string) :
  has_uppercase s = false -> has_uppercase (padStart s 2 "0") = false.
Proof.
  intros Hs.
  assert (Hfill : forall n cur, has_uppercase cur = false ->
                                has_uppercase (pad_fill n cur "0") = false).
  { induction n as [| n IH]; intros cur Hcur; simpl; [reflexivity |].
    destruct cur as [| c cur]; simpl in *.
    - apply IH. reflexivity.
    - apply orb_false_iff in Hcur as [Hc Hcur]. rewrite Hc. apply IH, Hcur. }
  unfold padStart.
  destruct ((2 <=? Z.of_nat (String.length s)) || ("0" =? "")%string); [exact Hs |].
  rewrite has_uppercase_append, Hfill, Hs; reflexivity.
Qed.

Lemma monthNames_uppercase (monthName : string) :
  In monthName monthNames -> has_uppercase monthName = true.
Proof.
  simpl. intuition (subst; reflexivity).
Qed.

(** C10, as the claim states it, fails on two instances the constructor
    accepts.  With base URL [https://May.example.com] and month 13 the
    lookup is outside the array and yet the URL contains the month name
    [May].  With month 6.5 the month is between 1 and 12 and yet the lookup
    is outside the array. *)
Lemma monthNames_lookup_counterexample :
  (let this := constructor "https://May.example.com" 12 13 2024 in
   Array_get monthNames (month this - 1) = None
   /\ In "May" monthNames
   /\ is_substring "May" (createUrl this))
  /\ (let this := Numeric.constructor "https://api.news.com" (Numeric.of_Z 12)
                                      (Numeric.Finite 13 2) (Numeric.of_Z 2024) in
      Numeric.in_range 1 12 (Numeric.month this)
      /\ Numeric.Array_get monthNames (Numeric.sub (Numeric.month this) (Numeric.of_Z 1))
         = None).
Proof.
  split; cbv zeta.
  - split; [reflexivity |]. split; [simpl; tauto |].
    exists "https://", ".example.com/undefined-2024/12-13-2024.json". reflexivity.
  - split; [simpl; lia | reflexivity].
Qed.

(** C10, amended: the lookup [monthNames[month - 1]] is inside the array
    exactly when month is an integer from 1 to 12.  The constructor stores
    any month; when the lookup is outside the array the URL carries the text
    [undefined], which is no month name, where the month name goes, and for
    integer date, month and year with the month outside 1..12 what
    [createUrl] appends to the base URL contains no month name.  For an
    integer month from 1 to 12, which is
    what a [setDate] with integer arguments that returned leaves, the lookup
    gives a month name. *)
Theorem monthNames_lookup_in_bounds :
  (forall m : Numeric.number,
      Numeric.Array_get monthNames (Numeric.sub m (Numeric.of_Z 1)) <> None
      <-> exists z, Numeric.as_integer m = Some z /\ 1 <= z <= 12)
  /\ (forall (base : string) (d m y : Numeric.number),
         Numeric.month (Numeric.constructor base d m y) = m)
  /\ ~ In "undefined" monthNames
  /\ (forall (render : Z -> positive -> string) (this : Numeric.NewsFetcher),
         Numeric.Array_get monthNames (Numeric.sub (Numeric.month this) (Numeric.of_Z 1))
         = None ->
         Numeric.createUrl render this
         = Numeric.baseUrl this ++ "/" ++ "undefined" ++ "-"
             ++ Numeric.Number_toString render (Numeric.year this)
             ++ "/" ++ padStart (Numeric.Number_toString render (Numeric.date this)) 2 "0"
             ++ "-" ++ padStart (Numeric.Number_toString render (Numeric.month this)) 2 "0"
             ++ "-" ++ Numeric.Number_toString render (Numeric.year this) ++ ".json")
  /\ (forall (render : Z -> positive -> string) (this : NewsFetcher),
         ~ (1 <= month this <= 12) ->
         exists appended,
           Numeric.createUrl render (numeric_of this) = baseUrl this ++ appended
           /\ createUrl this = baseUrl this ++ appended
           /\ forall monthName, In monthName monthNames -> ~ is_substring monthName appended)
  /\ (forall (this : Numeric.NewsFetcher) (z : Z),
         Numeric.as_integer (Numeric.month this) = Some z -> 1 <= z <= 12 ->
         exists monthName,
           Numeric.Array_get monthNames (Numeric.sub (Numeric.month this) (Numeric.of_Z 1))
           = Some monthName
           /\ In monthName monthNames)
  /\ (forall (d m y : Z) (this this' : Numeric.NewsFetcher),
         Numeric.setDate (Numeric.of_Z d) (Numeric.of_Z m) (Numeric.of_Z y) this
         = (Returned tt, this') ->
         Numeric.as_integer (Numeric.month this') = Some m /\ 1 <= m <= 12).
Proof.
  split; [| split; [| split; [| split; [| split; [| split]]]]].
  - intros m. rewrite month_lookup.
    destruct (Numeric.as_integer m) as [z |].
    + rewrite Array_get_Some_iff. simpl. split.
      * intros Hz. exists z. split; [reflexivity | lia].
      * intros (z' & Hz' & Hrange). injection Hz' as <-. lia.
    + split; [congruence | intros (z & Hz & _); discriminate].
  - reflexivity.
  - simpl. intuition discriminate.
  - intros render this Hnone. unfold Numeric.createUrl. rewrite Hnone. reflexivity.
  - intros render this Hmonth. rewrite createUrl_on_integers.
    eexists. split; [| split].
    + unfold createUrl. rewrite Array_get_monthNames_out_of_range by exact Hmonth.
      reflexivity.
    + unfold createUrl. rewrite Array_get_monthNames_out_of_range by exact Hmonth.
      reflexivity.
    + intros monthName Hin Hsub.
      apply is_substring_uppercase in Hsub; [| apply monthNames_uppercase, Hin].
      cbv zeta in Hsub. simpl template_of in Hsub.
      rewrite !has_uppercase_append in Hsub.
      rewrite !padStart_no_uppercase in Hsub by apply Number_toString_no_uppercase.
      rewrite !Number_toString_no_uppercase in Hsub.
      simpl in Hsub. discriminate.
  - intros this z Hz Hrange. rewrite month_lookup, Hz.
    destruct (Array_get_monthNames_in_range z Hrange) as (monthName & Hget & _ & Hin).
    exists monthName. split; assumption.
  - intros d m y this this'. unfold Numeric.setDate.
    destruct (Numeric.lt (Numeric.of_Z d) (Numeric.of_Z 1)
              || Numeric.gt (Numeric.of_Z d) (Numeric.of_Z 31)); [discriminate |].
    destruct (Numeric.lt (Numeric.of_Z m) (Numeric.of_Z 1)
              || Numeric.gt (Numeric.of_Z m) (Numeric.of_Z 12)) eqn:Hm; [discriminate |].
    destruct (Numeric.lt (Numeric.of_Z y) (Numeric.of_Z 2000)
              || Numeric.gt (Numeric.of_Z y) (Numeric.of_Z 2100)); [discriminate |].
    intros Hrun. injection Hrun as <-. simpl Numeric.month.
    split; [apply as_integer_of_Z |].
    apply range_test_passes in Hm as [Hnan | Hin]; [discriminate |].
    simpl in Hin. lia.
Qed.

Lemma monthNames_lookup_in_bounds_witness :
  (exists appended,
      createUrl (constructor "https://api.news.com" 12 13 2024)
      = "https://api.news.com" ++ appended
      /\ ~ is_substring "May" appended)
  /\ exists monthName,
       Numeric.Array_get monthNames
         (Numeric.sub (Numeric.month
                         (snd (Numeric.setDate (Numeric.of_Z 15) (Numeric.of_Z 6)
                                 (Numeric.of_Z 2023)
                                 (Numeric.constructor "https://api.news.com" Numeric.NaN
                                    (Numeric.Finite 13 2) (Numeric.Infinity true)))))
                      (Numeric.of_Z 1))
       = Some monthName
       /\ In monthName monthNames.
Proof.
  pose proof monthNames_lookup_in_bounds as (_ & _ & _ & _ & Happended & Hsafe & Hset).
  split.
  - destruct (Happended (fun _ _ => "") (constructor "https://api.news.com" 12 13 2024))
      as (appended & _ & Hurl & Hnone); [simpl; lia |].
    exists appended. split; [exact Hurl |]. apply Hnone. simpl. tauto.
  - destruct (Hset 15 6 2023
                (Numeric.constructor "https://api.news.com" Numeric.NaN
                   (Numeric.Finite 13 2) (Numeric.Infinity true)) _ eq_refl)
      as [Hinteger Hrange].
    exact (Hsafe _ 6 Hinteger Hrange).
Defined.

(** X2: after a [setDate] with integer arguments that returned, whatever
    numbers the date context held before (the constructor may have stored
    fractions, [NaN] or an infinity), [createUrl] gives the URL of the new
    date under the old base URL, and it has the form
    [{baseUrl}/{MonthName}-{year}/{DD}-{MM}-{year}.json]. *)
Theorem setDate_then_createUrl
    (render : Z -> positive -> string) (d m y : Z) (this this' : Numeric.NewsFetcher) :
  Numeric.setDate (Numeric.of_Z d) (Numeric.of_Z m) (Numeric.of_Z y) this
  = (Returned tt, this') ->
  in_setter_ranges (constructor (Numeric.baseUrl this) d m y)
  /\ Numeric.createUrl render this' = createUrl (constructor (Numeric.baseUrl this) d m y)
  /\ url_as_specified (constructor (Numeric.baseUrl this) d m y)
                      (Numeric.createUrl render this').
Proof.
  unfold Numeric.setDate.
  destruct (Numeric.lt (Numeric.of_Z d) (Numeric.of_Z 1)
            || Numeric.gt (Numeric.of_Z d) (Numeric.of_Z 31)) eqn:Hd; [discriminate |].
  destruct (Numeric.lt (Numeric.of_Z m) (Numeric.of_Z 1)
            || Numeric.gt (Numeric.of_Z m) (Numeric.of_Z 12)) eqn:Hm; [discriminate |].
  destruct (Numeric.lt (Numeric.of_Z y) (Numeric.of_Z 2000)
            || Numeric.gt (Numeric.of_Z y) (Numeric.of_Z 2100)) eqn:Hy; [discriminate |].
  intros Hrun. injection Hrun as <-.
  apply range_test_passes in Hd as [Hnan | Hd]; [discriminate |].
  apply range_test_passes in Hm as [Hnan | Hm]; [discriminate |].
  apply range_test_passes in Hy as [Hnan | Hy]; [discriminate |].
  simpl in Hd, Hm, Hy.
  assert (Hranges : in_setter_ranges (constructor (Numeric.baseUrl this) d m y)).
  { unfold in_setter_ranges, date_in_range, month_in_range, year_in_range. simpl. lia. }
  assert (Hurl : Numeric.createUrl render
                   {| Numeric.baseUrl := Numeric.baseUrl this;
                      Numeric.month := Numeric.of_Z m;
                      Numeric.year := Numeric.of_Z y;
                      Numeric.date := Numeric.of_Z d |}
                 = createUrl (constructor (Numeric.baseUrl this) d m y))
    by apply (createUrl_on_integers render (constructor (Numeric.baseUrl this) d m y)).
  split; [exact Hranges |]. split; [exact Hurl |].
  rewrite Hurl. apply url_as_specified_in_ranges, Hranges.
Qed.

Lemma setDate_then_createUrl_witness :
  Numeric.createUrl (fun _ _ => "")
    (snd (Numeric.setDate (Numeric.of_Z 15) (Numeric.of_Z 6) (Numeric.of_Z 2023)
            (Numeric.constructor "https://api.news.com" Numeric.NaN
               (Numeric.Finite 13 2) (Numeric.Infinity true))))
  = "https://api.news.com/June-2023/15-06-2023.json".
Proof.
  etransitivity; [| reflexivity].
  exact (proj1 (proj2 (setDate_then_createUrl (fun _ _ => "") 15 6 2023
                         (Numeric.constructor "https://api.news.com" Numeric.NaN
                            (Numeric.Finite 13 2) (Numeric.Infinity true))
                         _ eq_refl))).
Defined.
